(** * Cribbage hand scorer: a shallow embedding of [cribbage_hand_scorer.py]
    and the proofs of its specification.

    Cards are Python tuples [(int, str)]: the card number is an unbounded
    integer ([Z]) and the suit a string, so that cards outside the 52-card
    universe can be written down and rejected by the validation of [score].
    Python sets are [gset]s, tuples and lists are [list]s, and a raised
    exception is the [Raise] outcome of the [result] monad. *)

From Stdlib Require Import ZArith String Ascii.
From stdpp Require Import gmap strings list sorting.

Local Open Scope Z_scope.
Set Warnings "-clear-no-such-hyp".

(** ** Exceptions *)

Inductive exn : Type :=
  | Exception (msg : string)
  | IndexError
  | ValueError.

Inductive result (A : Type) : Type :=
  | Ok (a : A)
  | Raise (e : exn).
Arguments Ok {A} a.
Arguments Raise {A} e.

Global Instance result_ret : MRet result := fun A a => Ok a.
Global Instance result_bind : MBind result := fun A B f m =>
  match m with
  | Ok a => f a
  | Raise e => Raise e
  end.

(** ** Python built-ins used by the module *)

Module Py.

(** [range(a, b)] over non-negative bounds. *)
Definition range (a b : nat) : list nat := seq a (b - a).

(** [len(x)] as a Python integer. *)
Definition len {A} (l : list A) : Z := Z.of_nat (length l).

(** [itertools.combinations(l, r)]: the [r]-length subsequences of [l], in
    the lexicographic order of their positions. *)
Fixpoint combinations {A} (l : list A) (r : nat) : list (list A) :=
  match r, l with
  | O, _ => [[]]
  | S _, [] => []
  | S r', x :: t => (cons x <$> combinations t r') ++ combinations t r
  end.

(** [max(l)] of a list of integers; [ValueError] on the empty list. *)
Definition max (l : list Z) : result Z :=
  match l with
  | [] => Raise ValueError
  | x :: t => Ok (foldl Z.max x t)
  end.

(** [sum(l)]. *)
Definition sum (l : list Z) : Z := foldr Z.add 0 l.

(** [set(s)] for a string [s]: the set of its one-character strings.
    Strings are byte strings here; the suits of the module are ASCII, where
    bytes and characters agree. *)
Definition set_of_str (s : string) : gset string :=
  list_to_set ((fun a => String a EmptyString) <$> list_ascii_of_string s).

(** Rich comparison.  Integers compare numerically, strings by code point,
    tuples lexicographically: the first position where the items differ
    decides, and a proper prefix is smaller. *)
Class Cmp (A : Type) := cmp : A -> A -> comparison.

Definition ltb `{Cmp A} (x y : A) : bool :=
  match cmp x y with Lt => true | _ => false end.

Definition prod_cmp {A B} (ca : A -> A -> comparison)
    (cb : B -> B -> comparison) (p q : A * B) : comparison :=
  match ca p.1 q.1 with
  | Eq => cb p.2 q.2
  | c => c
  end.

Fixpoint tuple_cmp {A} (ca : A -> A -> comparison) (p q : list A)
    : comparison :=
  match p, q with
  | [], [] => Eq
  | [], _ :: _ => Lt
  | _ :: _, [] => Gt
  | x :: p', y :: q' =>
      match ca x y with
      | Eq => tuple_cmp ca p' q'
      | c => c
      end
  end.

Global Instance int_cmp : Cmp Z := Z.compare.
Global Instance str_cmp : Cmp string := String.compare.
Global Instance prod_Cmp `{Cmp A, Cmp B} : Cmp (A * B) := prod_cmp cmp cmp.
Global Instance tuple_Cmp `{Cmp A} : Cmp (list A) := tuple_cmp cmp.

(** [list.sort()]: a stable sort that only asks [<].  Every element is
    inserted in front of the first element that is not smaller than it. *)
Fixpoint insert_sorted `{Cmp A} (x : A) (l : list A) : list A :=
  match l with
  | [] => [x]
  | y :: t => if ltb y x then y :: insert_sorted x t else x :: y :: t
  end.

Definition sort `{Cmp A} (l : list A) : list A := foldr insert_sorted [] l.

(** Tuple unpacking [a, b = t]. *)
Definition unpack2 {A} (t : list A) : result (A * A) :=
  match t with
  | [a; b] => Ok (a, b)
  | _ => Raise ValueError
  end.

End Py.

(** ** Module constants *)

(** A card is the tuple [(number, suit)]. *)
Abbreviation card := (Z * string)%type.

Definition _CARD_NUMBER_SMALLEST : Z := 1.
Definition _CARD_NUMBER_LARGEST : Z := 13.
Definition _CARD_NUMBERS : list Z :=
  seqZ _CARD_NUMBER_SMALLEST (_CARD_NUMBER_LARGEST + 1 - _CARD_NUMBER_SMALLEST).
Definition _SUITS : list string := ["s"; "h"; "d"; "c"]%string.
Definition _ALL_CARDS : list card :=
  n ← _CARD_NUMBERS; s ← _SUITS; [(n, s)].

Definition SINGLE_CARD_SCORE : Z := 1.
Definition HIS_NIBS_SCORE : Z := SINGLE_CARD_SCORE * 1.
Definition PAIR_SCORE : Z := SINGLE_CARD_SCORE * 2.
Definition SPECIAL_TOTAL_SCORE : Z := SINGLE_CARD_SCORE * 2.
Definition SPECIAL_TOTAL : Z := 15.
Definition MIN_HAND_SIZE : Z := 4.
Definition MIN_SEQUENCE_SIZE : Z := 3.
Definition MIN_FLUSH_SIZE : Z := 4.
Definition MAX_CARD_NUMBER : Z := 10.

(** ** The rule evaluators *)

(** [score_his_nibs]: the last card is the top-of-deck card; every jack
    among the other cards that has its suit scores. *)
Definition score_his_nibs (cards : list card) : result Z :=
  match last cards with
  | None => Raise IndexError
  | Some top_of_deck_card =>
      let other_cards := removelast cards in
      let his_nibs_count :=
        Py.len (filter (fun c : card => c.1 = 11 /\ c.2 = top_of_deck_card.2)
                       other_cards) in
      Ok (his_nibs_count * HIS_NIBS_SCORE)
  end.

(** [score_flush]: again the last card is taken to be the top-of-deck card. *)
Definition score_flush (cards : list card) : result Z :=
  match last cards with
  | None => Raise IndexError
  | Some top_of_deck_card =>
      let other_cards := removelast cards in
      if decide (Py.len other_cards < MIN_FLUSH_SIZE) then Ok 0
      else
        let suits : gset string := list_to_set (other_cards.*2) in
        if decide (size suits = 1%nat) then
          let flush_score := Py.len other_cards * SINGLE_CARD_SCORE in
          if decide (suits = Py.set_of_str top_of_deck_card.2)
          then Ok (flush_score + SINGLE_CARD_SCORE)
          else Ok flush_score
        else Ok 0
  end.

(** The differences between successive elements,
    [[l[i + 1] - l[i] for i in range(len(l) - 1)]]. *)
Definition differences (l : list Z) : list Z :=
  (fun i => nth (i + 1) l 0 - nth i l 0) <$> Py.range 0 (length l - 1).

Definition score_sequence (cards : list card) : Z :=
  if decide (Py.len cards < MIN_SEQUENCE_SIZE) then 0
  else
    let card_numbers := Py.sort (cards.*1) in
    let card_number_differences : gset Z :=
      list_to_set (differences card_numbers) in
    if decide (size card_number_differences = 1%nat /\
               head (elements card_number_differences) = Some 1)
    then 0 + Py.len cards * SINGLE_CARD_SCORE
    else 0.

(** The sublists of [cards] with [m] or more cards, by increasing size. *)
Definition sublists_from (m : nat) {A} (cards : list A) : list (list A) :=
  mjoin (Py.combinations cards <$> Py.range m (length cards + 1)).

Definition score_sequences (cards : list card) : result Z :=
  let card_sublists := sublists_from (Z.to_nat MIN_SEQUENCE_SIZE) cards in
  let card_sublist_scores := score_sequence <$> card_sublists in
  max_sublist_score ← Py.max card_sublist_scores;
  let count_max_scores :=
    Py.sum ((fun _ => 1) <$>
            filter (fun i => i = max_sublist_score) card_sublist_scores) in
  Ok (max_sublist_score * count_max_scores).

Definition score_pairs (cards : list card) : result Z :=
  card_pairs ← mapM Py.unpack2 (Py.combinations cards 2);
  let count_pairs :=
    Py.sum ((fun _ => 1) <$>
            filter (fun p : card * card => p.1.1 = p.2.1) card_pairs) in
  Ok (count_pairs * PAIR_SCORE).

Definition score_special_totals (cards : list card) : Z :=
  let card_sublists := sublists_from 1 cards in
  let card_total_sublists :=
    (fun card_sublist : list card =>
       Py.sum ((fun c : card =>
                  if decide (c.1 >= MAX_CARD_NUMBER) then MAX_CARD_NUMBER
                  else c.1) <$> card_sublist)) <$> card_sublists in
  let special_total_sublists :=
    filter (fun total => total = SPECIAL_TOTAL) card_total_sublists in
  Py.len special_total_sublists * SPECIAL_TOTAL_SCORE.

(** ** Scoring one minimum-size hand *)

Definition score_min_card_combo (cards : list card)
    (top_of_deck_card : option card) : result Z :=
  let combo_score := 0 in
  '(cards, combo_score) ←
    match top_of_deck_card with
    | Some t =>
        let cards := cards ++ [t] in
        nibs ← score_his_nibs cards;
        Ok (cards, combo_score + nibs)
    | None => Ok (cards, combo_score)
    end;
  flush ← score_flush cards;
  let combo_score := combo_score + flush in
  sequences ← score_sequences cards;
  let combo_score := combo_score + sequences in
  pairs ← score_pairs cards;
  let combo_score := combo_score + pairs in
  let combo_score := combo_score + score_special_totals cards in
  Ok combo_score.

(** ** The entry point *)

Abbreviation scored_hand := (Z * list card)%type.

Definition score (cards : list card) (top_of_deck_card : option card)
    : result (list scored_hand * option card) :=
  let all_cards : gset card := list_to_set _ALL_CARDS in
  if decide (¬ (list_to_set cards : gset card) ⊆ all_cards) then
    Raise (Exception "Invalid hand provided: Contains cards that are invalid")
  else if decide (Py.len cards < MIN_HAND_SIZE) then
    Raise (Exception "Invalid hand provided: Contains not enough cards")
  else if decide (length cards ≠ size (list_to_set cards : gset card)) then
    Raise (Exception "Invalid hand provided: Contains duplicate cards")
  else
    _ ← match top_of_deck_card with
        | Some t =>
            if decide (¬ ({[ t ]} : gset card) ⊆ all_cards) then
              Raise (Exception
                "Invalid top-of-deck card provided: Card is invalid")
            else if decide (({[ t ]} : gset card) ⊆ list_to_set cards) then
              Raise (Exception
                "Invalid top-of-deck card provided: Card is duplicated")
            else Ok ()
        | None => Ok ()
        end;
    let min_card_combos := Py.combinations cards (Z.to_nat MIN_HAND_SIZE) in
    min_card_combos_plus_scores ←
      mapM (fun hand => s ← score_min_card_combo hand top_of_deck_card;
                        Ok (s, hand))
           min_card_combos;
    Ok (Py.sort min_card_combos_plus_scores, top_of_deck_card).


(** ** Reference notions used by the statements *)

(** The binomial coefficient [C(n, k)], by Pascal's rule. *)
Fixpoint choose (n k : nat) : nat :=
  match k, n with
  | O, _ => 1
  | S _, O => 0
  | S k', S n' => choose n' k' + choose n' k
  end%nat.

(** Every sublist (subset, by positions) of a list. *)
Fixpoint subsets {A} (l : list A) : list (list A) :=
  match l with
  | [] => [[]]
  | x :: t => (cons x <$> subsets t) ++ subsets t
  end.

(** The subsets with [m] or more elements. *)
Definition subsets_from (m : nat) {A} (l : list A) : list (list A) :=
  filter (fun s => (m <= length s)%nat) (subsets l).

(** How many elements of a list satisfy a property. *)
Definition count_of {A} (P : A -> Prop) `{!forall x, Decision (P x)}
    (l : list A) : Z :=
  Z.of_nat (length (filter P l)).

(** Every element is its predecessor plus one. *)
Fixpoint consecutive (l : list Z) : Prop :=
  match l with
  | a :: (b :: _) as t => b - a = 1 /\ consecutive t
  | _ => True
  end.

(** A run: the sorted ranks go up by exactly one.  A run of [L] cards scores
    [L] points, anything else nothing. *)
Definition is_run (s : list card) : Prop := consecutive (Py.sort (s.*1)).

(** A card counts for its rank, a face card for ten. *)
Definition card_value (c : card) : Z := Z.min c.1 10.

(** A two-card subset of one rank. *)
Definition is_pair (s : list card) : Prop :=
  match s with
  | [a; b] => a.1 = b.1
  | _ => False
  end.

(** How many cards have rank [r], and the ranks that occur. *)
Definition rank_count (r : Z) (cards : list card) : nat :=
  length (filter (fun c : card => c.1 = r) cards).
Definition ranks (cards : list card) : list Z := remove_dups (cards.*1).

(** The unordered pairs of a list: every two positions, the earlier first. *)
Fixpoint pairs_of {A} (l : list A) : list (A * A) :=
  match l with
  | [] => []
  | x :: t => (pair x <$> t) ++ pairs_of t
  end.

(** The 52-card universe, said directly. *)
Definition known_card (c : card) : Prop :=
  1 <= c.1 <= 13 /\ c.2 ∈ _SUITS.

(** The inputs [score] accepts, said without sets. *)
Definition valid_input (cards : list card) (top : option card) : Prop :=
  Forall known_card cards /\ (4 <= length cards)%nat /\ NoDup cards /\
  match top with
  | Some t => known_card t /\ t ∉ cards
  | None => True
  end.

Global Instance known_card_dec (c : card) : Decision (known_card c).
Proof. unfold known_card. apply _. Defined.

Global Instance valid_input_dec cards top : Decision (valid_input cards top).
Proof. unfold valid_input. destruct top; apply _. Defined.

(** What [score] computes once the validation has passed. *)
Definition scored_combos (cards : list card) (top : option card)
    : result (list scored_hand) :=
  mapM (fun hand => s ← score_min_card_combo hand top; Ok (s, hand))
       (Py.combinations cards (Z.to_nat MIN_HAND_SIZE)).

(** The cards the rules are applied to: the hand with the cut card, when
    there is one, appended. *)
Definition candidate_set (hand : list card) (top : option card) : list card :=
  match top with
  | Some t => hand ++ [t]
  | None => hand
  end.

(** Two inputs used to exercise the statements. *)
Definition hand29 : list card :=
  [(5, "s"); (5, "h"); (5, "d"); (11, "c")]%string.
Definition cut29 : card := (5, "c"%string).
Definition flush4 : list card :=
  [(2, "s"); (4, "s"); (6, "s"); (8, "s")]%string.
Definition hand6 : list card :=
  [(2, "s"); (4, "s"); (6, "s"); (8, "s"); (9, "h"); (10, "d")]%string.

Global Instance is_pair_dec (s : list card) : Decision (is_pair s).
Proof. destruct s as [|a [|b [|c s]]]; simpl; apply _. Defined.

Global Instance consecutive_dec (l : list Z) : Decision (consecutive l).
Proof.
  induction l as [|a [|b t] IH]; simpl; [left; done..|]. apply _.
Defined.

Global Instance is_run_dec (s : list card) : Decision (is_run s).
Proof. unfold is_run. apply _. Defined.

Definition run_score (s : list card) : Z :=
  if decide (is_run s) then Py.len s else 0.

(** Two lists with the same entries up to [R], in any order: equal as
    multisets of [R]-classes. *)
Definition same_multiset {A} (R : relation A) (l k : list A) : Prop :=
  exists l', l ≡ₚ l' /\ Forall2 R l' k.

(** Two scored sub-hands with one score and the same cards, the sub-hand
    taken as a set. *)
Definition same_scored (p q : scored_hand) : Prop :=
  p.1 = q.1 /\ p.2 ≡ₚ q.2.

(** The score of a sub-hand, as a number. *)
Definition combo_points (top : option card) (hand : list card) : Z :=
  match score_min_card_combo hand top with
  | Ok z => z
  | Raise _ => 0
  end.

(** Python's [x <= y] on comparable values, as [not (y < x)]. *)
Definition py_le `{Py.Cmp A} (x y : A) : Prop := Py.ltb y x = false.

(** * Properties of the built-ins *)

(** ** The laws of rich comparison *)

Class OrdLaws (A : Type) `{Py.Cmp A} : Prop := {
  cmp_eq (x y : A) : Py.cmp x y = Eq <-> x = y;
  cmp_opp (x y : A) : Py.cmp y x = CompOpp (Py.cmp x y);
  cmp_lt_trans (x y z : A) :
    Py.cmp x y = Lt -> Py.cmp y z = Lt -> Py.cmp x z = Lt
}.

Global Instance int_laws : OrdLaws Z.
Proof.
  split; unfold Py.cmp, Py.int_cmp.
  - apply Z.compare_eq_iff.
  - intros x y. apply Z.compare_antisym.
  - intros x y z. rewrite !Z.compare_lt_iff. lia.
Qed.

Lemma ascii_compare_lt_trans (a b c : ascii) :
  Ascii.compare a b = Lt -> Ascii.compare b c = Lt -> Ascii.compare a c = Lt.
Proof.
  unfold Ascii.compare. rewrite !N.compare_lt_iff. apply N.lt_trans.
Qed.

Lemma string_compare_lt_trans (s1 s2 s3 : string) :
  String.compare s1 s2 = Lt -> String.compare s2 s3 = Lt ->
  String.compare s1 s3 = Lt.
Proof.
  revert s2 s3.
  induction s1 as [|a s1 IH]; intros [|b s2] [|c s3]; simpl; try done.
  destruct (Ascii.compare a b) eqn:Eab, (Ascii.compare b c) eqn:Ebc;
    try done.
  - apply Ascii.compare_eq_iff in Eab as ->. rewrite Ebc. apply IH.
  - apply Ascii.compare_eq_iff in Eab as ->. by rewrite Ebc.
  - apply Ascii.compare_eq_iff in Ebc as <-. by rewrite Eab.
  - by rewrite (ascii_compare_lt_trans _ _ _ Eab Ebc).
Qed.

Lemma string_compare_refl (s : string) : String.compare s s = Eq.
Proof.
  induction s as [|a s IH]; simpl; [done|].
  unfold Ascii.compare. by rewrite N.compare_refl.
Qed.

Global Instance str_laws : OrdLaws string.
Proof.
  split; unfold Py.cmp, Py.str_cmp.
  - intros x y. split; [apply String.compare_eq_iff|].
    intros ->. apply string_compare_refl.
  - intros x y. apply String.compare_antisym.
  - apply string_compare_lt_trans.
Qed.

Section lexicographic.
Context `{OrdLaws A, OrdLaws B}.

Lemma cmp_refl (x : A) : Py.cmp x x = Eq.
Proof. by apply cmp_eq. Qed.

Lemma cmp_gt_lt (x y : A) : Py.cmp x y = Gt <-> Py.cmp y x = Lt.
Proof. rewrite (cmp_opp x y). destruct (Py.cmp x y); naive_solver. Qed.

Global Instance prod_laws : OrdLaws (A * B).
Proof.
  split; unfold Py.cmp, Py.prod_Cmp, Py.prod_cmp.
  - intros [a b] [a' b']; simpl.
    destruct (Py.cmp a a') eqn:E.
    + apply cmp_eq in E as ->. rewrite cmp_eq.
      split; [by intros ->|by intros [= ->]].
    + split; [done|]. intros [= -> _]. by rewrite cmp_refl in E.
    + split; [done|]. intros [= -> _]. by rewrite cmp_refl in E.
  - intros [a b] [a' b']; simpl.
    rewrite (cmp_opp a a'), (cmp_opp b b'). by destruct (Py.cmp a a').
  - intros [a b] [a' b'] [a'' b'']; simpl.
    destruct (Py.cmp a a') eqn:E1, (Py.cmp a' a'') eqn:E2; try done.
    + apply cmp_eq in E1 as ->. rewrite E2. apply cmp_lt_trans.
    + apply cmp_eq in E1 as ->. by rewrite E2.
    + apply cmp_eq in E2 as <-. by rewrite E1.
    + by rewrite (cmp_lt_trans _ _ _ E1 E2).
Qed.

Global Instance tuple_laws : OrdLaws (list A).
Proof.
  split; unfold Py.cmp, Py.tuple_Cmp.
  - intros p. induction p as [|x p IH]; intros [|y q]; simpl; try done.
    destruct (Py.cmp x y) eqn:E.
    + apply cmp_eq in E as ->. rewrite IH.
      split; [by intros ->|by intros [= ->]].
    + split; [done|]. intros [= -> _]. by rewrite cmp_refl in E.
    + split; [done|]. intros [= -> _]. by rewrite cmp_refl in E.
  - intros p. induction p as [|x p IH]; intros [|y q]; simpl; try done.
    rewrite (cmp_opp x y), IH. by destruct (Py.cmp x y).
  - intros p. induction p as [|x p IH]; intros [|y q] [|z r]; simpl;
      try done.
    destruct (Py.cmp x y) eqn:E1, (Py.cmp y z) eqn:E2; try done.
    + apply cmp_eq in E1 as ->. rewrite E2. apply IH.
    + apply cmp_eq in E1 as ->. by rewrite E2.
    + apply cmp_eq in E2 as <-. by rewrite E1.
    + by rewrite (cmp_lt_trans _ _ _ E1 E2).
Qed.

End lexicographic.

(** ** [list.sort()] returns the sorted permutation *)

Section sorting.
Context `{OrdLaws A}.

Lemma ltb_lt (x y : A) : Py.ltb x y = true <-> Py.cmp x y = Lt.
Proof. unfold Py.ltb. by destruct (Py.cmp x y). Qed.

Lemma py_le_alt (x y : A) : py_le x y <-> Py.cmp x y <> Gt.
Proof.
  unfold py_le. rewrite <-not_true_iff_false, ltb_lt, cmp_gt_lt. done.
Qed.

Global Instance py_le_refl : Reflexive (py_le (A:=A)).
Proof. intros x. apply py_le_alt. by rewrite cmp_refl. Qed.

Global Instance py_le_trans : Transitive (py_le (A:=A)).
Proof.
  intros x y z. rewrite !py_le_alt. intros Hxy Hyz.
  destruct (Py.cmp x y) eqn:E1; [| |done].
  - by apply cmp_eq in E1 as ->.
  - destruct (Py.cmp y z) eqn:E2; [| |done].
    + apply cmp_eq in E2 as <-. by rewrite E1.
    + by rewrite (cmp_lt_trans _ _ _ E1 E2).
Qed.

Global Instance py_le_antisym : AntiSymm (=) (py_le (A:=A)).
Proof.
  intros x y. rewrite !py_le_alt, (cmp_opp x y). intros Hxy Hyx.
  destruct (Py.cmp x y) eqn:E; [by apply cmp_eq|done|done].
Qed.

Lemma ltb_py_le (x y : A) : Py.ltb x y = true -> py_le x y.
Proof.
  rewrite ltb_lt, py_le_alt. by intros ->.
Qed.

Lemma insert_sorted_perm (x : A) (l : list A) : Py.insert_sorted x l ≡ₚ x :: l.
Proof.
  induction l as [|y l IH]; simpl; [done|].
  destruct (Py.ltb y x); [|done]. rewrite IH. apply Permutation_swap.
Qed.

Lemma sort_perm (l : list A) : Py.sort l ≡ₚ l.
Proof.
  induction l as [|x l IH]; simpl; [done|].
  by rewrite insert_sorted_perm, IH.
Qed.

Lemma insert_sorted_Sorted (x : A) (l : list A) :
  Sorted py_le l -> Sorted py_le (Py.insert_sorted x l).
Proof.
  induction l as [|y l IH]; simpl; intros Hl.
  - by repeat constructor.
  - destruct (Py.ltb y x) eqn:E.
    + apply Sorted_inv in Hl as [Hl Hy]. constructor; [by apply IH|].
      destruct l as [|z l]; simpl.
      * constructor. by apply ltb_py_le.
      * destruct (Py.ltb z x); constructor.
        -- by apply HdRel_inv in Hy.
        -- by apply ltb_py_le.
    + constructor; [done|]. by constructor.
Qed.

Lemma sort_Sorted (l : list A) : Sorted py_le (Py.sort l).
Proof.
  induction l as [|x l IH]; simpl; [constructor|].
  by apply insert_sorted_Sorted.
Qed.

Lemma sort_StronglySorted (l : list A) : StronglySorted py_le (Py.sort l).
Proof. apply Sorted_StronglySorted; [apply _|apply sort_Sorted]. Qed.

Lemma sort_unique (l l' : list A) : l ≡ₚ l' -> Py.sort l = Py.sort l'.
Proof.
  intros Hp. apply (Sorted_unique py_le); try apply sort_Sorted.
  by rewrite !sort_perm.
Qed.

Lemma sort_length (l : list A) : length (Py.sort l) = length l.
Proof. by rewrite sort_perm. Qed.

End sorting.

(** ** The [result] monad *)

Section result.
Context {A B : Type} (f : A -> result B).

Lemma mapM_Ok_Forall2 (l : list A) (ys : list B) :
  mapM f l = Ok ys <-> Forall2 (fun x y => f x = Ok y) l ys.
Proof.
  revert ys. induction l as [|x l IH]; intros ys; simpl.
  - split; [intros [= <-]; constructor|by inversion 1].
  - destruct (f x) as [y|e] eqn:Ex; simpl.
    + destruct (mapM f l) as [k|e] eqn:El; simpl.
      * split.
        -- intros [= <-]. constructor; [done|]. by apply (IH k).
        -- inversion 1 as [|? y' ? k' Hy Hk]; simplify_eq.
           apply (proj2 (IH k')) in Hk. unfold mret, result_ret. congruence.
      * split; [done|]. inversion 1 as [|? y' ? k' Hy Hk]; simplify_eq.
        by apply (proj2 (IH k')) in Hk.
    + split; [done|]. inversion 1; congruence.
Qed.

Lemma mapM_total (l : list A) :
  (forall x, x ∈ l -> exists y, f x = Ok y) -> exists ys, mapM f l = Ok ys.
Proof.
  induction l as [|x l IH]; intros Hl; simpl; [by eexists|].
  destruct (Hl x) as [y ->]; [left|]. simpl.
  destruct IH as [ys ->]; [|by eexists].
  intros z Hz. apply Hl. by right.
Qed.

End result.

(** ** List facts *)

Section list_facts.
Context {A B : Type}.

Lemma filter_fmap (f : A -> B) (P : B -> Prop) `{!forall y, Decision (P y)}
    (l : list A) :
  filter P (f <$> l) = f <$> filter (fun x => P (f x)) l.
Proof.
  induction l as [|x l IH]; [done|].
  rewrite fmap_cons, !filter_cons.
  destruct (decide (P (f x))); [rewrite fmap_cons|]; by rewrite IH.
Qed.

Lemma filter_none (P : A -> Prop) `{!forall x, Decision (P x)} (l : list A) :
  (forall x, x ∈ l -> ~ P x) -> filter P l = [].
Proof.
  induction l as [|x l IH]; intros Hl; [done|].
  rewrite filter_cons_False by (apply Hl; left).
  apply IH. intros y Hy. apply Hl. by right.
Qed.

Lemma filter_all (P : A -> Prop) `{!forall x, Decision (P x)} (l : list A) :
  Forall P l -> filter P l = l.
Proof.
  induction 1 as [|x l Hx _ IH]; [done|].
  by rewrite filter_cons_True, IH.
Qed.

End list_facts.

(** ** [itertools.combinations] *)

Section combinations.
Context {A : Type}.
Implicit Types (l s : list A) (r : nat).

Lemma combinations_0 l : Py.combinations l 0 = [[]].
Proof. by destruct l. Qed.

Lemma combinations_length l r s : s ∈ Py.combinations l r -> length s = r.
Proof.
  revert r s. induction l as [|x l IH]; intros [|r] s; simpl.
  - by intros ->%list_elem_of_singleton.
  - by intros ?%elem_of_nil.
  - by intros ->%list_elem_of_singleton.
  - rewrite elem_of_app, list_elem_of_fmap.
    intros [(s' & -> & Hs')|Hs]; simpl; [f_equal|]; eauto.
Qed.

Lemma combinations_choose l r :
  length (Py.combinations l r) = choose (length l) r.
Proof.
  revert r. induction l as [|x l IH]; intros [|r]; simpl; try done.
  by rewrite length_app, length_fmap, !IH.
Qed.

Lemma combinations_too_many l r :
  (length l < r)%nat -> Py.combinations l r = [].
Proof.
  revert r. induction l as [|x l IH]; intros [|r]; simpl; try done; try lia.
  intros Hr. rewrite !IH by lia. done.
Qed.

Lemma combinations_all l : Py.combinations l (length l) = [l].
Proof.
  induction l as [|x l IH]; simpl; [done|].
  rewrite IH, combinations_too_many by lia. done.
Qed.

Lemma combinations_sublist l r s : s ∈ Py.combinations l r -> sublist s l.
Proof.
  revert r s. induction l as [|x l IH]; intros [|r] s; simpl.
  - by intros ->%list_elem_of_singleton.
  - by intros ?%elem_of_nil.
  - intros ->%list_elem_of_singleton. apply sublist_nil_l.
  - rewrite elem_of_app, list_elem_of_fmap.
    intros [(s' & -> & Hs')|Hs].
    + apply sublist_skip. eauto.
    + apply sublist_cons. eauto.
Qed.

Lemma combinations_NoDup l r : NoDup l -> NoDup (Py.combinations l r).
Proof.
  revert r. induction l as [|x l IH]; intros [|r] Hl; simpl;
    try apply NoDup_singleton; try apply NoDup_nil_2.
  apply NoDup_cons in Hl as [Hx Hl]. apply NoDup_app. split_and!.
  - apply (NoDup_fmap_2 _). by apply IH.
  - intros s (s' & -> & Hs')%list_elem_of_fmap Hs.
    apply combinations_sublist in Hs. apply Hx.
    eapply elem_of_sublist; [|done]. left.
  - by apply IH.
Qed.

Lemma subsets_filter_length l r :
  filter (fun s => length s = r) (subsets l) = Py.combinations l r.
Proof.
  revert r. induction l as [|x l IH]; intros r; simpl.
  - destruct r; done.
  - rewrite filter_app. destruct r as [|r].
    + rewrite (IH 0%nat), combinations_0.
      rewrite filter_none; [done|].
      by intros s (s' & -> & _)%list_elem_of_fmap.
    + rewrite (IH (S r)). f_equal. rewrite <-(IH r).
      rewrite filter_fmap. f_equal. apply list_filter_iff.
      intros s; simpl. lia.
Qed.

End combinations.

(** * Validation *)

Lemma known_card_all_cards (c : card) : c ∈ _ALL_CARDS <-> known_card c.
Proof.
  unfold _ALL_CARDS, known_card, _CARD_NUMBERS.
  rewrite list_elem_of_bind. split.
  - intros (n & (s & ->%list_elem_of_singleton & Hs)%list_elem_of_bind & Hn).
    apply elem_of_seqZ in Hn. simpl. split; [|done].
    unfold _CARD_NUMBER_SMALLEST, _CARD_NUMBER_LARGEST in Hn. lia.
  - destruct c as [n s]; simpl. intros [Hn Hs]. exists n. split.
    + unfold _SUITS in *. set_solver.
    + apply elem_of_seqZ.
      unfold _CARD_NUMBER_SMALLEST, _CARD_NUMBER_LARGEST. lia.
Qed.

Lemma subset_all_cards (l : list card) :
  (list_to_set l : gset card) ⊆ list_to_set _ALL_CARDS <-> Forall known_card l.
Proof.
  rewrite Forall_forall, elem_of_subseteq. apply forall_proper. intros c.
  by rewrite !elem_of_list_to_set, known_card_all_cards.
Qed.

Lemma size_list_to_set_le `{Countable K} (l : list K) :
  (size (list_to_set l : gset K) <= length l)%nat.
Proof.
  induction l as [|x l IH]; [done|].
  rewrite list_to_set_cons, size_union_alt, size_singleton. simpl.
  assert (size (list_to_set l ∖ {[x]} : gset K) <= size (list_to_set l : gset K))%nat
    by (apply subseteq_size; set_solver).
  lia.
Qed.

Lemma size_list_to_set_NoDup `{Countable K} (l : list K) :
  length l = size (list_to_set l : gset K) <-> NoDup l.
Proof.
  split; [|intros Hl; by rewrite size_list_to_set].
  induction l as [|x l IH]; [constructor|].
  rewrite list_to_set_cons. simpl.
  intros Hlen. pose proof (size_list_to_set_le l) as Hle.
  destruct (decide (x ∈ l)) as [Hx|Hx].
  - assert ({[x]} ∪ list_to_set l = (list_to_set l : gset K)) as Heq
      by set_solver.
    rewrite Heq in Hlen. lia.
  - rewrite size_union in Hlen by set_solver.
    rewrite size_singleton in Hlen. apply NoDup_cons. split; [done|].
    apply IH. lia.
Qed.

(** * The rule evaluators return *)

Lemma max_total (l : list Z) : l <> [] -> exists m, Py.max l = Ok m.
Proof. destruct l; [done|]. by eexists. Qed.

Lemma foldl_max_spec (l : list Z) (x : Z) :
  foldl Z.max x l ∈ x :: l /\ Forall (fun y => y <= foldl Z.max x l) (x :: l).
Proof.
  revert x. induction l as [|y l IH]; intros x; simpl.
  - split; [left|]. by repeat constructor.
  - destruct (IH (Z.max x y)) as [Hin Hall].
    apply Forall_cons in Hall as [Hxy Hall]. split.
    + apply elem_of_cons in Hin as [Hin|Hin]; [|by do 2 right].
      rewrite Hin. destruct (Z.max_spec x y) as [[_ ->]|[_ ->]];
        [right|]; left.
    + repeat constructor; [lia|lia|done].
Qed.

Lemma max_spec (l : list Z) (m : Z) :
  Py.max l = Ok m <-> m ∈ l /\ Forall (fun y => y <= m) l.
Proof.
  destruct l as [|x l]; simpl.
  - split; [done|]. by intros [?%elem_of_nil _].
  - destruct (foldl_max_spec l x) as [Hin Hall]. split.
    + by intros [= <-].
    + intros [Hm Hle]. f_equal. apply Z.le_antisymm.
      * rewrite Forall_forall in Hle. by apply Hle.
      * rewrite Forall_forall in Hall. by apply Hall.
Qed.

Lemma elem_of_range (i a b : nat) : i ∈ Py.range a b <-> (a <= i < b)%nat.
Proof. unfold Py.range. rewrite elem_of_seq. lia. Qed.

Lemma elem_of_sublists_from {A} (m : nat) (cards s : list A) :
  s ∈ sublists_from m cards <->
  (m <= length s)%nat /\ s ∈ Py.combinations cards (length s).
Proof.
  unfold sublists_from. rewrite list_elem_of_join. split.
  - intros (ss & Hs & (i & -> & Hi)%list_elem_of_fmap).
    apply elem_of_range in Hi. pose proof (combinations_length _ _ _ Hs).
    subst i. split; [lia|done].
  - intros [Hm Hs]. exists (Py.combinations cards (length s)).
    split; [done|]. apply list_elem_of_fmap. eexists. split; [done|].
    apply elem_of_range. apply combinations_sublist, sublist_length in Hs.
    lia.
Qed.

Lemma sublists_from_self {A} (m : nat) (cards : list A) :
  (m <= length cards)%nat -> cards ∈ sublists_from m cards.
Proof.
  intros Hm. apply elem_of_sublists_from. split; [done|].
  rewrite combinations_all. left.
Qed.

Lemma score_sequences_total (cards : list card) :
  (3 <= length cards)%nat -> exists z, score_sequences cards = Ok z.
Proof.
  intros Hlen. unfold score_sequences.
  destruct (max_total (score_sequence <$>
    sublists_from (Z.to_nat MIN_SEQUENCE_SIZE) cards)) as [m ->].
  - intros Hnil%fmap_nil_inv.
    pose proof (sublists_from_self (Z.to_nat MIN_SEQUENCE_SIZE) cards Hlen)
      as Hin.
    rewrite Hnil in Hin. by apply elem_of_nil in Hin.
  - simpl. by eexists.
Qed.

Lemma combinations_1 {A} (l : list A) :
  Py.combinations l 1 = (fun x => [x]) <$> l.
Proof.
  induction l as [|x l IH]; [done|].
  simpl. by rewrite combinations_0, IH.
Qed.

Lemma unpack2_combinations {A} (l : list A) :
  mapM Py.unpack2 (Py.combinations l 2) = Ok (pairs_of l).
Proof.
  apply mapM_Ok_Forall2. induction l as [|x l IH]; simpl; [constructor|].
  apply Forall2_app; [|done]. rewrite combinations_1, <-list_fmap_compose.
  apply Forall2_fmap, Forall_Forall2_diag, Forall_forall. done.
Qed.

Lemma score_pairs_Ok (cards : list card) :
  score_pairs cards =
  Ok (Py.sum ((fun _ => 1) <$>
        filter (fun p : card * card => p.1.1 = p.2.1) (pairs_of cards))
      * PAIR_SCORE).
Proof. unfold score_pairs. by rewrite unpack2_combinations. Qed.

Lemma score_flush_total (cards : list card) :
  cards <> [] -> exists z, score_flush cards = Ok z.
Proof.
  intros [t Ht]%last_is_Some. unfold score_flush. rewrite Ht.
  repeat case_decide; by eexists.
Qed.

Lemma score_his_nibs_total (cards : list card) :
  cards <> [] -> exists z, score_his_nibs cards = Ok z.
Proof.
  intros [t Ht]%last_is_Some. unfold score_his_nibs. rewrite Ht. by eexists.
Qed.

Lemma score_min_card_combo_total (cards : list card) (top : option card) :
  (3 <= length cards)%nat -> exists z, score_min_card_combo cards top = Ok z.
Proof.
  intros Hlen. unfold score_min_card_combo.
  set (cards' := match top with Some t => cards ++ [t] | None => cards end).
  assert (3 <= length cards')%nat as Hlen'.
  { unfold cards'. destruct top; [rewrite length_app|]; lia. }
  assert (cards' <> []) as Hne by (intros E; rewrite E in Hlen'; simpl in *; lia).
  destruct (score_flush_total _ Hne) as [f Hf].
  destruct (score_sequences_total _ Hlen') as [q Hq].
  destruct top as [t|]; simpl.
  - destruct (score_his_nibs_total _ Hne) as [n Hn].
    fold cards'. rewrite Hn. simpl. rewrite Hf. simpl. rewrite Hq. simpl.
    rewrite score_pairs_Ok. simpl. by eexists.
  - fold cards'. rewrite Hf. simpl. rewrite Hq. simpl.
    rewrite score_pairs_Ok. simpl. by eexists.
Qed.

(** * [score]: validation, then the scored combinations *)

Lemma score_valid (cards : list card) (top : option card) :
  valid_input cards top ->
  score cards top = (scored ← scored_combos cards top;
                     Ok (Py.sort scored, top)).
Proof.
  intros (Hknown & Hlen & Hnodup & Htop). unfold score, scored_combos.
  rewrite decide_False by (intros Hn; by apply Hn, subset_all_cards).
  rewrite decide_False by (unfold Py.len, MIN_HAND_SIZE; lia).
  rewrite decide_False by (intros Hn; by apply Hn, size_list_to_set_NoDup).
  destruct top as [t|]; [|done]. destruct Htop as [Ht Hnin].
  rewrite decide_False.
  2:{ intros Hn. apply Hn. apply singleton_subseteq_l, elem_of_list_to_set.
      by apply known_card_all_cards. }
  rewrite decide_False; [done|].
  by intros Hin%singleton_subseteq_l%elem_of_list_to_set.
Qed.

Lemma score_invalid (cards : list card) (top : option card) :
  ~ valid_input cards top -> exists msg, score cards top = Raise (Exception msg).
Proof.
  intros Hinv. unfold score.
  case_decide as H1; [by eexists|].
  case_decide as H2; [by eexists|].
  case_decide as H3; [by eexists|].
  destruct top as [t|].
  - case_decide as H4; [by eexists|].
    case_decide as H5; [by eexists|]. exfalso. apply Hinv.
    split_and!.
    + by apply subset_all_cards.
    + unfold Py.len, MIN_HAND_SIZE in H2. lia.
    + by apply size_list_to_set_NoDup.
    + apply known_card_all_cards.
      by apply singleton_subseteq_l, elem_of_list_to_set in H4.
    + intros Hin. apply H5. by apply singleton_subseteq_l, elem_of_list_to_set.
  - exfalso. apply Hinv. split_and!; [| |by apply size_list_to_set_NoDup|done].
    + by apply subset_all_cards.
    + unfold Py.len, MIN_HAND_SIZE in H2. lia.
Qed.

Lemma scored_combos_total (cards : list card) (top : option card) :
  exists scored, scored_combos cards top = Ok scored.
Proof.
  apply mapM_total. intros hand Hhand%combinations_length.
  destruct (score_min_card_combo_total hand top) as [z ->].
  - rewrite Hhand. unfold MIN_HAND_SIZE. lia.
  - by eexists.
Qed.

Lemma scored_combos_spec (cards : list card) (top : option card) scored :
  scored_combos cards top = Ok scored <->
  Forall2 (fun hand p => score_min_card_combo hand top = Ok p.1 /\ p.2 = hand)
          (Py.combinations cards 4) scored.
Proof.
  unfold scored_combos. rewrite mapM_Ok_Forall2.
  change (Z.to_nat MIN_HAND_SIZE) with 4%nat.
  split; intros HF; (eapply Forall2_impl; [exact HF|]);
    intros hand [s h]; simpl;
    destruct (score_min_card_combo hand top); simpl; naive_solver.
Qed.

Lemma score_Ok (cards : list card) (top : option card) :
  valid_input cards top ->
  exists scored, scored_combos cards top = Ok scored /\
                 score cards top = Ok (Py.sort scored, top).
Proof.
  intros Hv. destruct (scored_combos_total cards top) as [scored Hs].
  exists scored. split; [done|]. by rewrite score_valid, Hs.
Qed.

Lemma choose_pos (n k : nat) : (k <= n)%nat -> (0 < choose n k)%nat.
Proof.
  revert k. induction n as [|n IH]; intros [|k] Hk; simpl; try lia.
  specialize (IH k). lia.
Qed.

Lemma StronglySorted_lookup {A} (R : relation A) (l : list A) i j x y :
  StronglySorted R l -> (i < j)%nat ->
  l !! i = Some x -> l !! j = Some y -> R x y.
Proof.
  intros Hl. revert i j. induction Hl as [|z l Hl IH Hz]; intros i j Hij.
  - by rewrite lookup_nil.
  - destruct j as [|j]; [lia|]. destruct i as [|i]; simpl.
    + intros [= ->] Hy. rewrite Forall_forall in Hz.
      by eapply Hz, list_elem_of_lookup_2.
    + apply IH. lia.
Qed.

Lemma cmp_pair `{Py.Cmp A, Py.Cmp B} (a a' : A) (b b' : B) :
  Py.cmp (a, b) (a', b') =
  match Py.cmp a a' with Eq => Py.cmp b b' | c => c end.
Proof. done. Qed.

Lemma py_le_scored_fst (p q : scored_hand) : py_le p q -> p.1 <= q.1.
Proof.
  destruct p as [s h], q as [s' h'].
  rewrite py_le_alt, cmp_pair. simpl.
  unfold Py.cmp at 1, Py.int_cmp.
  destruct (Z.compare_spec s s'); [lia|lia|done].
Qed.

Lemma py_le_scored_snd (s : Z) (h1 h2 : list card) :
  py_le (s, h1) (s, h2) -> h1 <> h2 -> Py.cmp h1 h2 = Lt.
Proof.
  rewrite py_le_alt, cmp_pair, cmp_refl. intros Hgt Hne.
  destruct (Py.cmp h1 h2) eqn:E; [|done|done]. by apply cmp_eq in E.
Qed.

Lemma scored_combos_hands cards top scored :
  scored_combos cards top = Ok scored ->
  scored.*2 = Py.combinations cards 4.
Proof.
  intros HF%scored_combos_spec.
  induction HF as [|h p hs ps [_ Hp] _ IH]; [done|].
  rewrite fmap_cons. by rewrite IH, Hp.
Qed.

(** * The scoring pipeline *)

(** C2: on every input that passes the validation, [score] returns; on every
    candidate set made from a validated hand (at least 4 cards), his nibs,
    the flush, the sequences (whose maximum is over a non-empty list), the
    pairs and the whole combination score return without an error.  The
    special totals are a total function by construction. *)
Theorem score_returns_normally (cards : list card) (top : option card) :
  valid_input cards top ->
  (exists res, score cards top = Ok (res, top)) /\
  forall hand, hand ∈ Py.combinations cards 4 ->
    let candidate := candidate_set hand top in
    (4 <= length candidate)%nat /\
    (exists z, score_his_nibs candidate = Ok z) /\
    (exists z, score_flush candidate = Ok z) /\
    sublists_from 3 candidate <> [] /\
    (exists z, score_sequences candidate = Ok z) /\
    (exists z, score_pairs candidate = Ok z) /\
    (exists z, score_min_card_combo hand top = Ok z).
Proof.
  intros Hv. split.
  - destruct (score_Ok _ _ Hv) as (scored & _ & ->). by eexists.
  - intros hand Hlen%combinations_length candidate.
    assert (4 <= length candidate)%nat as Hc.
    { unfold candidate, candidate_set.
      destruct top; [rewrite length_app|]; lia. }
    assert (candidate <> []) as Hne
      by (intros E; rewrite E in Hc; simpl in *; lia).
    split_and!; [done|..].
    + by apply score_his_nibs_total.
    + by apply score_flush_total.
    + intros Hnil. pose proof (sublists_from_self 3 candidate) as Hin.
      rewrite Hnil in Hin. eapply elem_of_nil, Hin. lia.
    + apply score_sequences_total. lia.
    + rewrite score_pairs_Ok. by eexists.
    + apply score_min_card_combo_total. lia.
Qed.

Lemma score_returns_normally_witness :
  valid_input hand29 (Some cut29) /\
  exists res, score hand29 (Some cut29) = Ok (res, Some cut29).
Proof.
  split.
  - apply (bool_decide_unpack _). by vm_compute.
  - apply (score_returns_normally hand29 (Some cut29)).
    apply (bool_decide_unpack _). by vm_compute.
Defined.

Lemma not_valid_input (cards : list card) (top : option card) :
  ~ valid_input cards top <->
  (exists c, c ∈ cards /\ ~ known_card c) \/ (length cards < 4)%nat \/
  ~ NoDup cards \/
  (exists t, top = Some t /\ (~ known_card t \/ t ∈ cards)).
Proof.
  unfold valid_input. split.
  - intros Hn.
    destruct (decide (Forall known_card cards)) as [Hk|Hk].
    2:{ left. apply not_Forall_Exists in Hk; [|apply _].
        apply Exists_exists in Hk. naive_solver. }
    destruct (decide (length cards < 4)%nat) as [Hl|Hl]; [by auto|].
    destruct (decide (NoDup cards)) as [Hd|Hd]; [|by auto].
    do 3 right. destruct top as [t|].
    + exists t. split; [done|].
      destruct (decide (known_card t)); [|by left].
      destruct (decide (t ∈ cards)); [by right|].
      exfalso. apply Hn. split_and!; [done|lia|done..].
    + exfalso. apply Hn. split_and!; [done|lia|done..].
  - intros [(c & Hc & Hk)|[Hl|[Hd|(t & -> & Ht)]]] (Hknown & Hlen & Hnd & Htop).
    + rewrite Forall_forall in Hknown. by apply Hk, Hknown.
    + lia.
    + done.
    + destruct Htop, Ht; done.
Qed.

(** C3: [score] raises an error exactly when some hand card is outside the
    52-card universe, the hand has fewer than 4 cards, the hand has a
    duplicate card, or a cut card is given that is outside the universe or
    is in the hand already.  The error is one of the validation errors (an
    [Exception] with a message; the rule evaluators can only raise
    [IndexError] or [ValueError]), so it is raised before any scoring, and no
    result is returned with it. *)
Theorem score_raises_iff (cards : list card) (top : option card) :
  ((exists e, score cards top = Raise e) <->
   (exists c, c ∈ cards /\ ~ known_card c) \/ (length cards < 4)%nat \/
   ~ NoDup cards \/
   (exists t, top = Some t /\ (~ known_card t \/ t ∈ cards))) /\
  (forall e, score cards top = Raise e ->
     (exists msg, e = Exception msg) /\ forall r, score cards top <> Ok r).
Proof.
  rewrite <-not_valid_input. split; [split|].
  - intros [e He] Hv. destruct (score_Ok _ _ Hv) as (? & _ & Hs). congruence.
  - intros (msg & Hmsg)%score_invalid. by eexists.
  - intros e He. destruct (decide (valid_input cards top)) as [Hv|Hv].
    + destruct (score_Ok _ _ Hv) as (? & _ & Hs). congruence.
    + destruct (score_invalid _ _ Hv) as [msg Hmsg]. split; [|congruence].
      exists msg. congruence.
Qed.

Lemma sorted_hands_NoDup (cards : list card) (top : option card) scored :
  NoDup cards -> scored_combos cards top = Ok scored ->
  NoDup ((Py.sort scored).*2).
Proof.
  intros Hnd Hs%scored_combos_hands.
  rewrite sort_perm, Hs. by apply combinations_NoDup.
Qed.

(** C4: for a valid hand of [n >= 4] cards, [score] returns one
    (score, sub-hand) pair for each of the [C(n, 4)] four-card combinations
    of the hand (the hand itself when [n = 4]), every sub-hand scored by
    [score_min_card_combo] with the cut card; the list is sorted ascending
    by score and is not empty. *)
Theorem score_all_combinations (cards : list card) (top : option card) :
  valid_input cards top ->
  exists res, score cards top = Ok (res, top) /\
    (exists scored,
       Forall2 (fun hand p =>
                  score_min_card_combo hand top = Ok p.1 /\ p.2 = hand)
               (Py.combinations cards 4) scored /\
       res ≡ₚ scored) /\
    length res = choose (length cards) 4 /\
    NoDup (res.*2) /\
    (length cards = 4%nat -> res.*2 = [cards]) /\
    StronglySorted Z.le (res.*1) /\
    res <> [].
Proof.
  intros Hv. destruct (score_Ok _ _ Hv) as (scored & Hs & ->).
  destruct Hv as (_ & Hlen & Hnd & _).
  pose proof (scored_combos_hands _ _ _ Hs) as Hhands.
  assert (length (Py.sort scored) = choose (length cards) 4) as Hcount.
  { by rewrite sort_length, <-(length_fmap snd), Hhands, combinations_choose. }
  exists (Py.sort scored). split_and!; [done| |done|..].
  - exists scored. split; [by apply scored_combos_spec|apply sort_perm].
  - rewrite sort_perm, Hhands. by apply combinations_NoDup.
  - intros H4. apply Permutation_singleton_r.
    by rewrite sort_perm, Hhands, <-H4, combinations_all.
  - eapply StronglySorted_fmap; [|apply sort_StronglySorted].
    intros p q. apply py_le_scored_fst.
  - intros Hnil. rewrite Hnil in Hcount. simpl in Hcount.
    pose proof (choose_pos (length cards) 4 Hlen). lia.
Qed.

Lemma score_all_combinations_witness :
  valid_input hand6 None /\
  exists res, score hand6 None = Ok (res, None) /\ length res = 15%nat.
Proof.
  split.
  - apply (bool_decide_unpack _). by vm_compute.
  - destruct (score_all_combinations hand6 None) as (res & Hs & _ & Hl & _).
    + apply (bool_decide_unpack _). by vm_compute.
    + exists res. split; [exact Hs|exact Hl].
Defined.

(** C10: for a valid input the result list is sorted by the whole
    (score, sub-hand) pair, so sub-hands with equal scores come in the
    lexicographic order of their card tuples: of two entries with the
    same score, the earlier one has the strictly smaller tuple. *)
Theorem score_ties_lexicographic (cards : list card) (top : option card) :
  valid_input cards top ->
  exists res, score cards top = Ok (res, top) /\
    StronglySorted py_le res /\
    forall i j s hand1 hand2, (i < j)%nat ->
      res !! i = Some (s, hand1) -> res !! j = Some (s, hand2) ->
      Py.cmp hand1 hand2 = Lt.
Proof.
  intros Hv. destruct (score_Ok _ _ Hv) as (scored & Hsc & Hs).
  pose proof (sorted_hands_NoDup cards top scored
                (proj1 (proj2 (proj2 Hv))) Hsc) as Hnd.
  exists (Py.sort scored).
  pose proof (sort_StronglySorted scored) as Hsorted.
  split_and!; [done..|]. intros i j s h1 h2 Hij Hi Hj.
  apply (py_le_scored_snd s).
  - eapply (StronglySorted_lookup _ _ i j); eauto.
  - intros ->. eapply (NoDup_lookup _ i j) in Hnd; [lia| |].
    + by rewrite list_lookup_fmap, Hi.
    + by rewrite list_lookup_fmap, Hj.
Qed.

Lemma score_ties_lexicographic_witness :
  valid_input hand6 None /\
  exists res, score hand6 None = Ok (res, None) /\ StronglySorted py_le res.
Proof.
  split.
  - apply (bool_decide_unpack _). by vm_compute.
  - destruct (score_ties_lexicographic hand6 None) as (res & Hs & Hl & _).
    + apply (bool_decide_unpack _). by vm_compute.
    + exists res. split; [exact Hs|exact Hl].
Defined.

(** * Enumerating by size is enumerating the subsets *)

Lemma filter_disjoint_app {A} (P Q : A -> Prop)
    `{!forall x, Decision (P x), !forall x, Decision (Q x)} (l : list A) :
  (forall x, P x -> Q x -> False) ->
  filter P l ++ filter Q l ≡ₚ filter (fun x => P x \/ Q x) l.
Proof.
  intros Hdisj. induction l as [|x l IH]; [done|].
  rewrite !filter_cons.
  destruct (decide (P x)) as [HP|HP], (decide (Q x)) as [HQ|HQ].
  - by destruct (Hdisj x).
  - rewrite decide_True by auto. simpl. by rewrite IH.
  - rewrite decide_True by auto. rewrite <-Permutation_middle. by rewrite IH.
  - rewrite decide_False by tauto. done.
Qed.

Lemma join_by_size {A} (f : A -> nat) (l : list A) (m n : nat) :
  (forall x, x ∈ l -> (f x < m + n)%nat) ->
  mjoin ((fun i => filter (fun x => f x = i) l) <$> seq m n) ≡ₚ
  filter (fun x => (m <= f x)%nat) l.
Proof.
  revert m. induction n as [|n IH]; intros m Hf; simpl.
  - rewrite filter_none; [done|]. intros x Hx%Hf. lia.
  - rewrite IH by (intros x Hx%Hf; lia).
    rewrite filter_disjoint_app by (intros; lia).
    apply reflexive_eq, list_filter_iff. intros x. lia.
Qed.

Section by_size.
Context {A : Type}.
Implicit Types (l s : list A).

Lemma subsets_length l s : s ∈ subsets l -> (length s <= length l)%nat.
Proof.
  revert s. induction l as [|x l IH]; intros s; simpl.
  - intros ->%list_elem_of_singleton. done.
  - rewrite elem_of_app, list_elem_of_fmap.
    intros [(s' & -> & Hs')|Hs]; simpl.
    + apply IH in Hs'. lia.
    + apply IH in Hs. lia.
Qed.

Lemma sublists_from_subsets (m : nat) l :
  sublists_from m l ≡ₚ subsets_from m l.
Proof.
  unfold sublists_from, subsets_from, Py.range.
  rewrite <-(join_by_size length (subsets l) m (length l + 1 - m)).
  - apply reflexive_eq. f_equal. apply list_fmap_ext.
    intros _ i _. by rewrite subsets_filter_length.
  - intros s Hs%subsets_length. lia.
Qed.

Lemma elem_of_subsets_from (m : nat) l s :
  s ∈ subsets_from m l -> (m <= length s)%nat.
Proof. unfold subsets_from. rewrite list_elem_of_filter. by intros []. Qed.

End by_size.

(** ** Counting and the maximum do not depend on the order *)

Lemma sum_ones {A} (l : list A) : Py.sum ((fun _ => 1) <$> l) = Py.len l.
Proof.
  unfold Py.len, Py.sum. induction l as [|x l IH]; [done|].
  rewrite fmap_cons. cbn [foldr length]. rewrite IH. lia.
Qed.

Lemma count_of_fmap {A B} (f : A -> B) (P : B -> Prop)
    `{!forall y, Decision (P y)} (l : list A) :
  Py.len (filter P (f <$> l)) = count_of (fun x => P (f x)) l.
Proof. unfold Py.len, count_of. by rewrite filter_fmap, length_fmap. Qed.

Global Instance count_of_perm {A} (P : A -> Prop) `{!forall x, Decision (P x)} :
  Proper ((≡ₚ) ==> (=)) (count_of P).
Proof. intros l l' Hl. unfold count_of. by rewrite Hl. Qed.

Lemma count_of_ext {A} (P Q : A -> Prop)
    `{!forall x, Decision (P x), !forall x, Decision (Q x)} (l : list A) :
  (forall x, x ∈ l -> P x <-> Q x) -> count_of P l = count_of Q l.
Proof.
  intros HPQ. unfold count_of. do 2 f_equal.
  induction l as [|x l IH]; [done|]. rewrite !filter_cons.
  assert (P x <-> Q x) as Hx by (apply HPQ; left).
  rewrite IH by (intros y Hy; apply HPQ; by right).
  destruct (decide (P x)), (decide (Q x)); tauto.
Qed.

(** * Special totals *)

(** C6: the special-totals score is 2 points for every non-empty subset of
    the candidate set (of any size, up to the whole set) whose cards, each
    counted as [min(rank, 10)], sum to exactly 15; every such subset counts
    on its own, nested or overlapping as it may be. *)
Theorem score_special_totals_fifteens (cards : list card) :
  score_special_totals cards =
  2 * count_of (fun s => s <> [] /\ Py.sum (card_value <$> s) = 15)
               (subsets cards).
Proof.
  unfold score_special_totals. rewrite count_of_fmap.
  rewrite sublists_from_subsets. unfold subsets_from, count_of at 1.
  rewrite list_filter_filter. fold (count_of (fun s : list card =>
    Py.sum ((fun c : card => if decide (c.1 >= MAX_CARD_NUMBER)
                             then MAX_CARD_NUMBER else c.1) <$> s)
    = SPECIAL_TOTAL /\ (1 <= length s)%nat) (subsets cards)).
  unfold SPECIAL_TOTAL_SCORE, SINGLE_CARD_SCORE, SPECIAL_TOTAL.
  rewrite Z.mul_comm. f_equal. apply count_of_ext. intros s _.
  assert (((fun c : card => if decide (c.1 >= MAX_CARD_NUMBER)
                            then MAX_CARD_NUMBER else c.1) <$> s)
          = card_value <$> s) as ->.
  { apply list_fmap_ext. intros _ c _. unfold card_value, MAX_CARD_NUMBER.
    case_decide; lia. }
  assert ((1 <= length s)%nat <-> s <> []) as Hs.
  { destruct s; simpl; split; intros; (lia || done). }
  rewrite Hs. tauto.
Qed.

(** * Sequences *)

Lemma differences_cons2 (a b : Z) (t : list Z) :
  differences (a :: b :: t) = (b - a) :: differences (b :: t).
Proof.
  unfold differences, Py.range. simpl length.
  replace (S (S (length t)) - 1 - 0)%nat with (S (length t)) by lia.
  replace (S (length t) - 1 - 0)%nat with (length t) by lia.
  cbn [seq]. rewrite fmap_cons. f_equal.
  rewrite <-fmap_S_seq, <-list_fmap_compose. apply list_fmap_ext.
  intros _ i _. simpl. done.
Qed.

Lemma differences_short (l : list Z) :
  (length l <= 1)%nat -> differences l = [].
Proof.
  intros Hl. unfold differences, Py.range.
  by replace (length l - 1 - 0)%nat with 0%nat by lia.
Qed.

Lemma differences_consecutive (l : list Z) :
  Forall (fun d => d = 1) (differences l) <-> consecutive l.
Proof.
  induction l as [|a [|b t] IH].
  - by rewrite differences_short by (simpl; lia).
  - by rewrite differences_short by (simpl; lia).
  - rewrite differences_cons2, Forall_cons, IH. done.
Qed.

Lemma differences_length (l : list Z) :
  length (differences l) = (length l - 1)%nat.
Proof. unfold differences, Py.range. rewrite length_fmap, length_seq. lia. Qed.

Lemma only_ones (L : list Z) :
  size (list_to_set L : gset Z) = 1%nat /\
  head (elements (list_to_set L : gset Z)) = Some 1 <->
  L <> [] /\ Forall (fun d => d = 1) L.
Proof.
  split.
  - intros [Hsize Hhead]. apply size_1_elem_of in Hsize as [x Hx].
    apply leibniz_equiv in Hx. rewrite Hx, elements_singleton in Hhead.
    injection Hhead as ->. split.
    + intros ->. by apply (f_equal size) in Hx.
    + apply Forall_forall. intros d Hd.
      assert (d ∈ (list_to_set L : gset Z)) as Hd' by set_solver.
      rewrite Hx in Hd'. set_solver.
  - intros [Hne Hall].
    assert ((list_to_set L : gset Z) = {[1]}) as ->.
    { apply set_eq. intros d. rewrite elem_of_list_to_set, elem_of_singleton.
      rewrite Forall_forall in Hall. split; [by apply Hall|intros ->].
      destruct L as [|d L]; [done|].
      rewrite (Hall d) by left. left. }
    by rewrite size_singleton, elements_singleton.
Qed.

Lemma score_sequence_run_score (s : list card) :
  (3 <= length s)%nat -> score_sequence s = run_score s.
Proof.
  intros Hlen. unfold score_sequence, run_score, is_run.
  rewrite decide_False by (unfold Py.len, MIN_SEQUENCE_SIZE; lia).
  assert (differences (Py.sort (s.*1)) <> []) as Hne.
  { intros E%(f_equal length).
    rewrite differences_length, sort_length, length_fmap in E.
    simpl in E. lia. }
  unfold SINGLE_CARD_SCORE.
  destruct (decide (consecutive (Py.sort (s.*1)))) as [Hc|Hc].
  - rewrite decide_True; [lia|].
    apply only_ones. split; [done|]. by apply differences_consecutive.
  - rewrite decide_False; [done|].
    intros [_ Hall]%only_ones. by apply Hc, differences_consecutive.
Qed.

Lemma consecutive_lt (a : Z) (t : list Z) :
  consecutive (a :: t) -> Forall (fun x => a < x) t.
Proof.
  revert a. induction t as [|b t IH]; intros a; [constructor|].
  intros [Hab Ht]. constructor; [lia|].
  eapply Forall_impl; [by apply IH|]. simpl. lia.
Qed.

Lemma consecutive_NoDup (l : list Z) : consecutive l -> NoDup l.
Proof.
  induction l as [|a t IH]; [constructor|]. intros Hc.
  pose proof (consecutive_lt _ _ Hc) as Hlt. apply NoDup_cons. split.
  - intros Hin. rewrite Forall_forall in Hlt. apply Hlt in Hin. lia.
  - apply IH. destruct t; [done|]. by destruct Hc.
Qed.

Lemma is_run_NoDup (s : list card) : is_run s -> NoDup (s.*1).
Proof.
  intros Hr%consecutive_NoDup. by rewrite sort_perm in Hr.
Qed.

Lemma score_sequence_repeated (s : list card) :
  ~ NoDup (s.*1) -> score_sequence s = 0.
Proof.
  intros Hd. destruct (decide (3 <= length s)%nat) as [Hlen|Hlen].
  - rewrite score_sequence_run_score by done. unfold run_score.
    rewrite decide_False; [done|]. intros Hr. by apply Hd, is_run_NoDup.
  - unfold score_sequence.
    rewrite decide_True by (unfold Py.len, MIN_SEQUENCE_SIZE; lia). done.
Qed.

(** C5: the run score of a candidate set is [M * K], where [M] is the
    largest run score of a subset of 3 or more cards and [K] the number of
    such subsets that reach [M].  A subset of 3 or more cards is a run
    exactly when its sorted ranks go up by one at every step, a run of [L]
    cards scores [L], and a repeated rank breaks the run. *)
Theorem score_sequences_max_times_count (cards : list card) :
  (3 <= length cards)%nat ->
  (forall s, (3 <= length s)%nat ->
     (is_run s -> score_sequence s = Py.len s) /\
     (~ is_run s -> score_sequence s = 0)) /\
  (forall s, ~ NoDup (s.*1) -> ~ is_run s /\ score_sequence s = 0) /\
  exists M,
    (exists s, s ∈ subsets_from 3 cards /\ score_sequence s = M) /\
    (forall s, s ∈ subsets_from 3 cards -> score_sequence s <= M) /\
    score_sequences cards =
      Ok (M * count_of (fun s => score_sequence s = M) (subsets_from 3 cards)).
Proof.
  intros Hlen. split_and!.
  - intros s Hs. rewrite score_sequence_run_score by done. unfold run_score.
    split; intros Hr; [by rewrite decide_True|by rewrite decide_False].
  - intros s Hs. split; [|by apply score_sequence_repeated].
    intros Hr. by apply Hs, is_run_NoDup.
  - unfold score_sequences. change (Z.to_nat MIN_SEQUENCE_SIZE) with 3%nat.
    destruct (Py.max (score_sequence <$> sublists_from 3 cards))
      as [M|e] eqn:Hmax.
    2:{ destruct (score_sequences_total cards Hlen) as [z Hz].
        unfold score_sequences in Hz.
        change (Z.to_nat MIN_SEQUENCE_SIZE) with 3%nat in Hz.
        by rewrite Hmax in Hz. }
    apply max_spec in Hmax as [Hin Hle]. exists M. simpl.
    rewrite sum_ones, count_of_fmap.
    rewrite (sublists_from_subsets 3 cards) in Hin, Hle |- *.
    split_and!; [|by rewrite Forall_fmap, Forall_forall in Hle|done].
    apply list_elem_of_fmap in Hin as (s & -> & Hs). by exists s.
Qed.

Lemma score_sequences_max_times_count_witness :
  (3 <= length (hand29 ++ [cut29]))%nat /\
  exists M, score_sequences (hand29 ++ [cut29]) =
    Ok (M * count_of (fun s => score_sequence s = M)
                     (subsets_from 3 (hand29 ++ [cut29]))).
Proof.
  split.
  - simpl. lia.
  - destruct (score_sequences_max_times_count (hand29 ++ [cut29]))
      as (_ & _ & M & _ & _ & HM).
    + simpl. lia.
    + exists M. exact HM.
Defined.

(** * Pairs *)

Lemma choose_1 (n : nat) : choose n 1 = n.
Proof. induction n as [|n IH]; simpl; [done|]. rewrite IH. by destruct n. Qed.

Lemma choose_S_2 (n : nat) : choose (S n) 2 = (n + choose n 2)%nat.
Proof. change (choose (S n) 2) with (choose n 1 + choose n 2)%nat.
  by rewrite choose_1. Qed.

Lemma sum_fmap_add {A} (f g : A -> Z) (l : list A) :
  Py.sum ((fun x => f x + g x) <$> l) = Py.sum (f <$> l) + Py.sum (g <$> l).
Proof.
  unfold Py.sum. induction l as [|x l IH]; [done|].
  rewrite !fmap_cons. cbn [foldr]. rewrite IH. lia.
Qed.

Lemma sum_fmap_indicator (g : Z -> Z) (a : Z) (R : list Z) :
  NoDup R -> a ∈ R ->
  Py.sum ((fun r => if decide (a = r) then g r else 0) <$> R) = g a.
Proof.
  unfold Py.sum. induction R as [|r R IH]; [by intros _ ?%elem_of_nil|].
  intros [Hr HR]%NoDup_cons Ha. rewrite fmap_cons. cbn [foldr].
  destruct (decide (a = r)) as [->|Hne].
  - assert (foldr Z.add 0 ((fun r0 => if decide (r = r0) then g r0 else 0)
                           <$> R) = 0) as ->; [|lia].
    clear IH HR Ha. induction R as [|r' R IH]; [done|].
    rewrite fmap_cons. cbn [foldr].
    rewrite decide_False by (intros ->; apply Hr; left).
    rewrite IH; [done|]. intros Hin. apply Hr. by right.
  - rewrite IH; [lia|done|]. by apply elem_of_cons in Ha as [|].
Qed.

Lemma pairs_count_cons (x : card) (l : list card) :
  count_of (fun p : card * card => p.1.1 = p.2.1) (pairs_of (x :: l)) =
  Z.of_nat (rank_count x.1 l) +
  count_of (fun p : card * card => p.1.1 = p.2.1) (pairs_of l).
Proof.
  unfold count_of, rank_count. simpl pairs_of.
  rewrite filter_app, length_app, filter_fmap, length_fmap. simpl.
  rewrite Nat2Z.inj_add. do 3 f_equal. apply list_filter_iff.
  intros c. split; congruence.
Qed.

Lemma pairs_count_by_rank (R : list Z) (l : list card) :
  NoDup R -> (forall c, c ∈ l -> c.1 ∈ R) ->
  count_of (fun p : card * card => p.1.1 = p.2.1) (pairs_of l) =
  Py.sum ((fun r => Z.of_nat (choose (rank_count r l) 2)) <$> R).
Proof.
  intros HR. induction l as [|x l IH]; intros Hl.
  - unfold count_of, Py.sum. simpl. clear HR Hl.
    induction R as [|r R IH]; [done|]. rewrite fmap_cons. cbn [foldr].
    by rewrite <-IH.
  - rewrite pairs_count_cons, IH by (intros c Hc; apply Hl; by right).
    pose proof (sum_fmap_indicator
      (fun r => Z.of_nat (rank_count r l)) x.1 R HR) as Hind.
    cbv beta in Hind. rewrite <-Hind by (apply Hl; left).
    rewrite Z.add_comm, <-sum_fmap_add. f_equal. apply list_fmap_ext.
    intros _ r _. unfold rank_count at 3. rewrite filter_cons.
    destruct (decide (x.1 = r)) as [<-|Hne].
    + simpl length. fold (rank_count x.1 l). rewrite choose_S_2. lia.
    + fold (rank_count r l). lia.
Qed.

Lemma pairs_count_subsets (l : list card) :
  count_of is_pair (subsets l) =
  count_of (fun p : card * card => p.1.1 = p.2.1) (pairs_of l).
Proof.
  transitivity (count_of is_pair (Py.combinations l 2)).
  - rewrite <-subsets_filter_length. unfold count_of.
    rewrite list_filter_filter. do 2 f_equal. apply list_filter_iff.
    intros [|a [|b [|c s]]]; simpl; naive_solver.
  - pose proof (unpack2_combinations l) as HF. apply mapM_Ok_Forall2 in HF.
    unfold count_of. f_equal.
    induction HF as [|s p ss ps Hsp _ IH]; [done|].
    destruct s as [|a [|b [|c s]]]; try done. injection Hsp as <-.
    rewrite !filter_cons.
    destruct (decide (is_pair [a; b])) as [H1|H1],
      (decide ((a, b).1.1 = (a, b).2.1)) as [H2|H2];
      simpl in *; try done; by rewrite IH.
Qed.

(** C7: the pair score is 2 points for every two-card subset of the
    candidate set whose cards have the same rank, so a rank that occurs
    [k] times gives [C(k, 2)] pairs: [k] cards of one rank score
    [2 * C(k, 2)], 6 points for three of a kind and 12 for four. *)
Theorem score_pairs_by_rank (cards : list card) :
  score_pairs cards = Ok (2 * count_of is_pair (subsets cards)) /\
  count_of is_pair (subsets cards) =
    Py.sum ((fun r => Z.of_nat (choose (rank_count r cards) 2))
            <$> ranks cards) /\
  (forall r, Forall (fun c : card => c.1 = r) cards ->
     score_pairs cards = Ok (2 * Z.of_nat (choose (length cards) 2))) /\
  choose 2 2 = 1%nat /\ choose 3 2 = 3%nat /\ choose 4 2 = 6%nat.
Proof.
  assert (score_pairs cards = Ok (2 * count_of is_pair (subsets cards))) as Hs.
  { rewrite score_pairs_Ok, sum_ones, pairs_count_subsets.
    unfold count_of, Py.len, PAIR_SCORE, SINGLE_CARD_SCORE. f_equal. lia. }
  split_and!; [done| | |done..].
  - rewrite pairs_count_subsets. apply pairs_count_by_rank.
    + apply NoDup_remove_dups.
    + intros c Hc. apply elem_of_remove_dups, list_elem_of_fmap. eauto.
  - intros r Hr. rewrite Hs, pairs_count_subsets.
    rewrite (pairs_count_by_rank [r]).
    + unfold Py.sum, rank_count. simpl.
      rewrite filter_all by done. do 2 f_equal. lia.
    + apply NoDup_singleton.
    + intros c Hc. rewrite Forall_forall in Hr. rewrite (Hr c Hc). left.
Qed.

(** * The rules on given hands *)

(** C8: the hand 5♠ 5♥ 5♦ J♣ with the cut card 5♣ gives exactly one scored
    sub-hand, and its score is 29: 12 points for 6 pairs, 16 points for 8
    fifteens and 1 point for his nibs (no flush, no run). *)
Theorem score_hand29 :
  score hand29 (Some cut29) = Ok ([(29, hand29)], Some cut29) /\
  score_pairs (hand29 ++ [cut29]) = Ok (6 * PAIR_SCORE) /\
  score_special_totals (hand29 ++ [cut29]) = 8 * SPECIAL_TOTAL_SCORE /\
  score_his_nibs (hand29 ++ [cut29]) = Ok HIS_NIBS_SCORE /\
  score_flush (hand29 ++ [cut29]) = Ok 0 /\
  score_sequences (hand29 ++ [cut29]) = Ok 0 /\
  6 * PAIR_SCORE = 12 /\ 8 * SPECIAL_TOTAL_SCORE = 16 /\ HIS_NIBS_SCORE = 1.
Proof. split_and!; by vm_compute. Qed.

(** The flush rule when a cut card is given: four cards of one suit score 4,
    and 5 when the cut card has that suit too; a hand of mixed suits scores
    nothing, whatever the cut card. *)
Lemma score_flush_with_cut (hand : list card) (t : card) :
  length hand = 4%nat -> t.2 ∈ _SUITS ->
  (forall s, Forall (fun c : card => c.2 = s) hand ->
     score_flush (hand ++ [t]) = Ok (if decide (t.2 = s) then 5 else 4)) /\
  ((forall s, ~ Forall (fun c : card => c.2 = s) hand) ->
     score_flush (hand ++ [t]) = Ok 0).
Proof.
  intros Hlen Ht. unfold score_flush.
  rewrite last_snoc, removelast_last.
  rewrite decide_False by (unfold Py.len, MIN_FLUSH_SIZE; lia).
  assert (Py.set_of_str t.2 = {[ t.2 ]}) as Hset.
  { unfold _SUITS in Ht. rewrite !elem_of_cons in Ht.
    destruct Ht as [->|[->|[->|[->|?%elem_of_nil]]]]; try done;
      apply set_eq; intros x; unfold Py.set_of_str; simpl; set_solver. }
  rewrite Hset. unfold Py.len. rewrite Hlen.
  unfold SINGLE_CARD_SCORE. split.
  - intros s Hs.
    assert ((list_to_set (hand.*2) : gset string) = {[ s ]}) as ->.
    { apply set_eq. intros x.
      rewrite elem_of_list_to_set, list_elem_of_fmap, elem_of_singleton.
      rewrite Forall_forall in Hs. split.
      - intros (c & -> & Hc). by apply Hs.
      - intros ->. destruct hand as [|c hand]; [done|].
        exists c. split; [symmetry; apply Hs|]; left. }
    rewrite size_singleton, decide_True by done.
    destruct (decide (t.2 = s)) as [->|Hne].
    + by rewrite decide_True.
    + rewrite decide_False; [done|]. intros E. apply Hne. set_solver.
  - intros Hmixed. rewrite decide_False; [done|].
    intros [s Hs]%size_1_elem_of. apply (Hmixed s), Forall_forall.
    intros c Hc. assert (c.2 ∈ (list_to_set (hand.*2) : gset string)) as Hin.
    { apply elem_of_list_to_set, list_elem_of_fmap. eauto. }
    rewrite Hs in Hin. set_solver.
Qed.

(** Without a cut card [score_flush] takes the last card of the hand for
    the cut card, and the three that are left are too few for a flush. *)
Lemma score_flush_without_cut (hand : list card) :
  length hand = 4%nat -> score_flush (candidate_set hand None) = Ok 0.
Proof.
  intros Hlen. unfold candidate_set, score_flush.
  destruct (last hand) as [t|] eqn:Ht.
  - apply last_Some in Ht as [h ->]. rewrite removelast_last.
    rewrite length_app in Hlen. simpl in Hlen.
    rewrite decide_True; [done|]. unfold Py.len, MIN_FLUSH_SIZE. lia.
  - apply last_None in Ht as ->. done.
Qed.

(** C1, at the input that shows the defect: four spades and no cut card.
    The flush rule gives 0 points, not 4, and the hand scores 0; the same
    four cards score their flush as soon as a cut card is given. *)
Theorem flush_lost_without_cut :
  score_flush (candidate_set flush4 None) = Ok 0 /\
  score flush4 None = Ok ([(0, flush4)], None) /\
  score_flush (candidate_set flush4 (Some (10, "c"%string))) = Ok 4 /\
  score_flush (candidate_set flush4 (Some (10, "s"%string))) = Ok 5.
Proof. split_and!; by vm_compute. Qed.

(** * The order of the cards does not matter *)

Section same_multiset.
Context {A : Type}.
Implicit Types (R : relation A) (l k : list A).

Lemma Forall2_perm_r {B} (R : A -> B -> Prop) l (k k' : list B) :
  Forall2 R l k -> k ≡ₚ k' -> exists l', l ≡ₚ l' /\ Forall2 R l' k'.
Proof.
  intros HF Hp. revert l HF.
  induction Hp as [|x k k' _ IH|x y k|k k' k'' _ IH1 _ IH2]; intros l HF.
  - apply Forall2_nil_inv_r in HF as ->. by exists [].
  - apply Forall2_cons_inv_r in HF as (a & l0 & Ha & Hl0 & ->).
    destruct (IH _ Hl0) as (l' & Hl' & HF'). exists (a :: l').
    split; [by constructor|by constructor].
  - apply Forall2_cons_inv_r in HF as (a & l0 & Ha & Hl0 & ->).
    apply Forall2_cons_inv_r in Hl0 as (b & l1 & Hb & Hl1 & ->).
    exists (b :: a :: l1). split; [apply Permutation_swap|].
    by repeat constructor.
  - destruct (IH1 _ HF) as (l' & Hl' & HF').
    destruct (IH2 _ HF') as (l'' & Hl'' & HF''). exists l''.
    split; [by etrans|done].
Qed.

Lemma same_multiset_refl R `{!Reflexive R} l : same_multiset R l l.
Proof. exists l. split; [done|]. by apply Forall_Forall2_diag, Forall_true. Qed.

Lemma same_multiset_perm_l R l l0 k :
  l ≡ₚ l0 -> same_multiset R l0 k -> same_multiset R l k.
Proof. intros Hl (l' & Hl' & HF). exists l'. split; [by etrans|done]. Qed.

Lemma same_multiset_perm_r R l k0 k :
  same_multiset R l k0 -> k0 ≡ₚ k -> same_multiset R l k.
Proof.
  intros (l' & Hl' & HF) Hk. destruct (Forall2_perm_r _ _ _ _ HF Hk)
    as (l'' & Hl'' & HF'').
  exists l''. split; [by etrans|done].
Qed.

Lemma same_multiset_trans R `{!Transitive R} l k m :
  same_multiset R l k -> same_multiset R k m -> same_multiset R l m.
Proof.
  intros (l' & Hl' & HF) (k' & Hk' & HF').
  destruct (Forall2_perm_r _ _ _ _ HF Hk') as (l'' & Hl'' & HF'').
  exists l''. split; [by etrans|].
  eapply Forall2_trans; [|exact HF''|exact HF']. intros x y z. by etrans.
Qed.

Lemma same_multiset_app R l1 l2 k1 k2 :
  same_multiset R l1 k1 -> same_multiset R l2 k2 ->
  same_multiset R (l1 ++ l2) (k1 ++ k2).
Proof.
  intros (l1' & Hl1 & HF1) (l2' & Hl2 & HF2). exists (l1' ++ l2').
  split; [by rewrite Hl1, Hl2|by apply Forall2_app].
Qed.

Lemma same_multiset_fmap {B} R (R' : relation B) (f g : A -> B) l k :
  (forall x y, R x y -> R' (f x) (g y)) ->
  same_multiset R l k -> same_multiset R' (f <$> l) (g <$> k).
Proof.
  intros Hf (l' & Hl & HF). exists (f <$> l').
  split; [by rewrite Hl|]. apply Forall2_fmap.
  eapply Forall2_impl; [exact HF|done].
Qed.

Lemma same_multiset_filter R (P : A -> Prop) `{!forall x, Decision (P x)} l k :
  (forall x y, R x y -> P x <-> P y) ->
  same_multiset R l k -> same_multiset R (filter P l) (filter P k).
Proof.
  intros HP (l' & Hl & HF). exists (filter P l').
  split; [by rewrite Hl|]. clear Hl.
  induction HF as [|x y l' k Hxy _ IH]; [constructor|].
  rewrite !filter_cons. specialize (HP x y Hxy).
  destruct (decide (P x)), (decide (P y)); try tauto. by constructor.
Qed.

Lemma same_multiset_length R l k :
  same_multiset R l k -> length l = length k.
Proof.
  intros (l' & Hl & HF). rewrite Hl. by eapply Forall2_length.
Qed.

Lemma same_multiset_strengthen R (Q : A -> Prop) l k :
  same_multiset R l k -> Forall Q k ->
  same_multiset (fun x y => R x y /\ Q y) l k.
Proof.
  intros (l' & Hl & HF) HQ. exists l'. split; [done|]. clear Hl.
  induction HF as [|x y l' k Hxy _ IH]; [constructor|].
  apply Forall_cons in HQ as [Hy HQ]. constructor; [done|by apply IH].
Qed.

Lemma same_multiset_eq_fmap {B} R (f : A -> B) l k :
  (forall x y, R x y -> f x = f y) ->
  same_multiset R l k -> f <$> l ≡ₚ f <$> k.
Proof.
  intros Hf (l' & Hl & HF). rewrite Hl. apply reflexive_eq. clear Hl.
  induction HF as [|x y l' k Hxy _ IH]; [done|].
  rewrite !fmap_cons. by rewrite IH, (Hf x y).
Qed.

End same_multiset.

(** ** Subsets and combinations of a permuted list *)

Lemma subsets_perm {A} (l l' : list A) :
  l ≡ₚ l' -> same_multiset (≡ₚ) (subsets l) (subsets l').
Proof.
  induction 1 as [|x l l' _ IH|x y l|l l' l'' _ IH1 _ IH2].
  - by apply (same_multiset_refl (≡ₚ)).
  - simpl. apply same_multiset_app; [|done].
    eapply same_multiset_fmap; [|exact IH]. intros s s' Hs. by constructor.
  - simpl. rewrite !fmap_app, <-!list_fmap_compose, <-!(assoc_L (++)).
    set (S := subsets l).
    apply (same_multiset_perm_l _ _
      (((cons y ∘ cons x) <$> S) ++ (cons x <$> S) ++ (cons y <$> S) ++ S)).
    { apply Permutation_app_head. rewrite !(assoc_L (++)).
      apply Permutation_app_tail, Permutation_app_comm. }
    repeat apply same_multiset_app;
      try by apply (same_multiset_refl (≡ₚ)).
    eapply same_multiset_fmap; [|by apply (same_multiset_refl (≡ₚ))].
    intros s s' Hs. simpl. rewrite Hs. apply Permutation_swap.
  - eapply (same_multiset_trans (≡ₚ)); [exact IH1|exact IH2].
Qed.

Lemma combinations_perm {A} (l l' : list A) (r : nat) :
  l ≡ₚ l' ->
  same_multiset (≡ₚ) (Py.combinations l r) (Py.combinations l' r).
Proof.
  intros Hl. rewrite <-!subsets_filter_length.
  apply same_multiset_filter; [|by apply subsets_perm].
  intros s s' Hs. by rewrite Hs.
Qed.

Lemma subsets_from_perm {A} (m : nat) (l l' : list A) :
  l ≡ₚ l' -> same_multiset (≡ₚ) (subsets_from m l) (subsets_from m l').
Proof.
  intros Hl. apply same_multiset_filter; [|by apply subsets_perm].
  intros s s' Hs. by rewrite Hs.
Qed.

Lemma count_of_same_multiset {A} (R : relation A) (P : A -> Prop)
    `{!forall x, Decision (P x)} (l k : list A) :
  (forall x y, R x y -> P x <-> P y) ->
  same_multiset R l k -> count_of P l = count_of P k.
Proof.
  intros HP Hlk. unfold count_of. f_equal.
  eapply same_multiset_length, same_multiset_filter; done.
Qed.

(** ** The rule evaluators on a permuted candidate set *)

Global Instance sum_perm : Proper ((≡ₚ) ==> (=)) Py.sum.
Proof.
  unfold Py.sum. induction 1 as [|x l l' _ IH|x y l|l l' l'' _ IH1 _ IH2];
    simpl; [done|by rewrite IH|lia|by etrans].
Qed.

Lemma max_perm (l l' : list Z) : l ≡ₚ l' -> Py.max l = Py.max l'.
Proof.
  intros Hl. destruct (Py.max l) as [m|e] eqn:Hm.
  - symmetry. apply max_spec. apply max_spec in Hm. by rewrite <-Hl.
  - destruct l as [|x l]; [|done]. apply Permutation_nil_l in Hl as <-.
    by rewrite <-Hm.
Qed.

Lemma score_sequence_perm (s s' : list card) :
  s ≡ₚ s' -> score_sequence s = score_sequence s'.
Proof.
  intros Hs. unfold score_sequence, Py.len.
  rewrite (sort_unique (s.*1) (s'.*1)) by (by rewrite Hs).
  by rewrite (Permutation_length Hs).
Qed.

Lemma sequence_scores_perm (cards cards' : list card) :
  cards ≡ₚ cards' ->
  score_sequence <$> sublists_from 3 cards ≡ₚ
  score_sequence <$> sublists_from 3 cards'.
Proof.
  intros Hc. rewrite !sublists_from_subsets.
  eapply same_multiset_eq_fmap; [|by apply subsets_from_perm].
  apply score_sequence_perm.
Qed.

Lemma score_sequences_perm (cards cards' : list card) :
  cards ≡ₚ cards' -> score_sequences cards = score_sequences cards'.
Proof.
  intros HS%sequence_scores_perm. unfold score_sequences.
  change (Z.to_nat MIN_SEQUENCE_SIZE) with 3%nat.
  rewrite (max_perm _ _ HS).
  destruct (Py.max (score_sequence <$> sublists_from 3 cards')); [|done].
  simpl. rewrite !sum_ones. unfold Py.len. by rewrite HS.
Qed.

Lemma is_pair_alt (s : list card) :
  is_pair s <->
  length s = 2%nat /\ exists r, Forall (fun c : card => c.1 = r) s.
Proof.
  destruct s as [|a [|b [|c s]]]; simpl; try by (split; [done|intros [? _]]).
  split.
  - intros Hab. split; [done|]. exists b.1. by repeat constructor.
  - intros [_ [r Hr]]. apply Forall_cons in Hr as [-> Hr].
    by apply Forall_cons in Hr as [-> _].
Qed.

Lemma is_pair_perm (s s' : list card) : s ≡ₚ s' -> is_pair s <-> is_pair s'.
Proof.
  intros Hs. rewrite !is_pair_alt, (Permutation_length Hs).
  split; intros [? [r Hr]]; (split; [done|]); exists r.
  - by rewrite <-Hs.
  - by rewrite Hs.
Qed.

Lemma score_pairs_subsets (cards : list card) :
  score_pairs cards = Ok (2 * count_of is_pair (subsets cards)).
Proof.
  rewrite score_pairs_Ok, sum_ones, pairs_count_subsets.
  unfold count_of, Py.len, PAIR_SCORE, SINGLE_CARD_SCORE. f_equal. lia.
Qed.

Lemma score_pairs_perm (cards cards' : list card) :
  cards ≡ₚ cards' -> score_pairs cards = score_pairs cards'.
Proof.
  intros Hc. rewrite !score_pairs_subsets. do 2 f_equal.
  eapply count_of_same_multiset; [|by apply subsets_perm].
  apply is_pair_perm.
Qed.

Lemma score_special_totals_perm (cards cards' : list card) :
  cards ≡ₚ cards' -> score_special_totals cards = score_special_totals cards'.
Proof.
  intros Hc. unfold score_special_totals, Py.len. do 2 f_equal.
  apply Permutation_length, filter_Permutation.
  rewrite !sublists_from_subsets.
  eapply same_multiset_eq_fmap; [|by apply subsets_from_perm].
  intros s s' Hs. by rewrite Hs.
Qed.

Lemma score_his_nibs_perm (hand hand' : list card) (t : card) :
  hand ≡ₚ hand' ->
  score_his_nibs (hand ++ [t]) = score_his_nibs (hand' ++ [t]).
Proof.
  intros Hh. unfold score_his_nibs, Py.len.
  rewrite !last_snoc, !removelast_last. by rewrite Hh.
Qed.

Lemma score_flush_perm (hand hand' : list card) (t : card) :
  hand ≡ₚ hand' -> score_flush (hand ++ [t]) = score_flush (hand' ++ [t]).
Proof.
  intros Hh. unfold score_flush, Py.len.
  rewrite !last_snoc, !removelast_last.
  assert ((list_to_set (hand.*2) : gset string) = list_to_set (hand'.*2))
    as -> by (apply list_to_set_perm_L; by rewrite Hh).
  by rewrite (Permutation_length Hh).
Qed.

Lemma score_min_card_combo_unfold (hand : list card) (top : option card) :
  score_min_card_combo hand top =
  (nibs ← match top with
          | Some _ => score_his_nibs (candidate_set hand top)
          | None => Ok 0
          end;
   flush ← score_flush (candidate_set hand top);
   sequences ← score_sequences (candidate_set hand top);
   pairs ← score_pairs (candidate_set hand top);
   Ok (0 + nibs + flush + sequences + pairs +
       score_special_totals (candidate_set hand top))).
Proof.
  destruct top as [t|]; [|done].
  unfold score_min_card_combo, candidate_set.
  by destruct (score_his_nibs (hand ++ [t])).
Qed.

Lemma score_min_card_combo_perm (hand hand' : list card) top :
  length hand = 4%nat -> hand ≡ₚ hand' ->
  score_min_card_combo hand top = score_min_card_combo hand' top.
Proof.
  intros Hlen Hh. rewrite !score_min_card_combo_unfold.
  assert (candidate_set hand top ≡ₚ candidate_set hand' top) as Hc.
  { unfold candidate_set. destruct top; by rewrite Hh. }
  rewrite (score_sequences_perm _ _ Hc), (score_pairs_perm _ _ Hc).
  rewrite (score_special_totals_perm _ _ Hc).
  destruct top as [t|].
  - unfold candidate_set.
    by rewrite (score_his_nibs_perm _ _ t Hh), (score_flush_perm _ _ t Hh).
  - rewrite !score_flush_without_cut; [done| |done].
    by rewrite <-Hh.
Qed.

(** ** [score] on a permuted hand *)

Lemma valid_input_perm (cards cards' : list card) (top : option card) :
  cards ≡ₚ cards' -> valid_input cards top -> valid_input cards' top.
Proof.
  intros Hc (Hk & Hl & Hn & Ht). unfold valid_input.
  rewrite <-Hc. split_and!; [done..|].
  destruct top as [t|]; [|done]. by rewrite <-Hc.
Qed.

Lemma scored_combos_fmap (cards : list card) (top : option card) scored :
  scored_combos cards top = Ok scored ->
  scored = (fun hand => (combo_points top hand, hand))
           <$> Py.combinations cards 4.
Proof.
  intros HF%scored_combos_spec.
  induction HF as [|hand [s h] hands ps [Hs Hh] _ IH]; [done|].
  rewrite fmap_cons, <-IH. simpl in *. unfold combo_points.
  by rewrite Hs, Hh.
Qed.

Lemma scored_same_multiset (cards cards' : list card) (top : option card) :
  cards ≡ₚ cards' ->
  same_multiset same_scored
    ((fun hand => (combo_points top hand, hand)) <$> Py.combinations cards 4)
    ((fun hand => (combo_points top hand, hand)) <$> Py.combinations cards' 4).
Proof.
  intros Hc.
  eapply same_multiset_fmap;
    [|apply (same_multiset_strengthen (≡ₚ) (fun h => length h = 4%nat));
      [by apply combinations_perm|]].
  - intros h h' [Hh Hlen]. split; simpl; [|done]. unfold combo_points.
    rewrite (score_min_card_combo_perm h h'); [done| |done].
    by rewrite Hh.
  - apply Forall_forall. intros h. apply combinations_length.
Qed.

(** C9: permuting the cards of a valid hand gives the same multiset of
    (score, sub-hand as a set) pairs; in particular the score of a 4-card
    sub-hand does not depend on the order of its cards. *)
Theorem score_order_invariant (cards cards' : list card) (top : option card) :
  valid_input cards top -> cards ≡ₚ cards' ->
  (exists res res',
     score cards top = Ok (res, top) /\ score cards' top = Ok (res', top) /\
     same_multiset same_scored res res') /\
  (forall hand hand', length hand = 4%nat -> hand ≡ₚ hand' ->
     score_min_card_combo hand top = score_min_card_combo hand' top).
Proof.
  intros Hv Hc. split; [|intros hand hand'; apply score_min_card_combo_perm].
  pose proof (valid_input_perm _ _ _ Hc Hv) as Hv'.
  destruct (score_Ok _ _ Hv) as (scored & Hs & Hres).
  destruct (score_Ok _ _ Hv') as (scored' & Hs' & Hres').
  exists (Py.sort scored), (Py.sort scored'). split_and!; [done..|].
  apply scored_combos_fmap in Hs as ->. apply scored_combos_fmap in Hs' as ->.
  eapply same_multiset_perm_l; [apply sort_perm|].
  eapply same_multiset_perm_r; [|symmetry; apply sort_perm].
  by apply scored_same_multiset.
Qed.

Lemma score_order_invariant_witness :
  valid_input hand6 None /\ hand6 ≡ₚ reverse hand6 /\
  exists res res',
    score hand6 None = Ok (res, None) /\
    score (reverse hand6) None = Ok (res', None) /\
    same_multiset same_scored res res'.
Proof.
  split; [|split].
  - apply (bool_decide_unpack _). by vm_compute.
  - symmetry. apply reverse_Permutation.
  - apply (score_order_invariant hand6 (reverse hand6) None).
    + apply (bool_decide_unpack _). by vm_compute.
    + symmetry. apply reverse_Permutation.
Defined.

(** * Further properties of the rule evaluators *)

(** ** His nibs *)

Lemma filter_eq_NoDup {A} `{EqDecision A} (x : A) (l : list A) :
  NoDup l ->
  length (filter (fun y => y = x) l) = if decide (x ∈ l) then 1%nat else 0%nat.
Proof.
  induction 1 as [|y l Hy _ IH]; [done|]. rewrite filter_cons.
  destruct (decide (y = x)) as [->|Hne]; simpl.
  - rewrite decide_True by left. rewrite IH, decide_False; done.
  - rewrite IH. destruct (decide (x ∈ l)) as [Hin|Hin].
    + rewrite decide_True; [done|by right].
    + rewrite decide_False; [done|]. by intros [->|?]%elem_of_cons.
Qed.

(** X1: in a hand without repeated cards his nibs is worth exactly one
    point when the jack of the cut card's suit is in the hand, and nothing
    otherwise; the cut card itself is never counted, jack or not. *)
Theorem his_nibs_jack_of_cut_suit (hand : list card) (t : card) :
  NoDup hand ->
  score_his_nibs (hand ++ [t]) =
  Ok (if decide ((11, t.2) ∈ hand) then 1 else 0).
Proof.
  intros Hnd. unfold score_his_nibs, Py.len, HIS_NIBS_SCORE, SINGLE_CARD_SCORE.
  rewrite last_snoc, removelast_last.
  rewrite (list_filter_iff _ (fun c : card => c = (11, t.2))).
  - rewrite (filter_eq_NoDup _ _ Hnd). by destruct (decide (_ ∈ hand)).
  - intros [n s]; simpl. split; [by intros [-> ->]|by intros [= -> ->]].
Qed.

Lemma his_nibs_jack_of_cut_suit_witness :
  NoDup hand29 /\ score_his_nibs (hand29 ++ [cut29]) = Ok 1.
Proof.
  split.
  - apply (bool_decide_unpack _). by vm_compute.
  - apply (his_nibs_jack_of_cut_suit hand29 cut29).
    apply (bool_decide_unpack _). by vm_compute.
Defined.

(** ** Which validation error *)

(** X2: the validation checks of [score] run in a fixed order and the first
    one that fails decides the message: unknown hand card, then too few
    cards, then duplicate hand cards, then unknown cut card, then cut card
    already in the hand. *)
Theorem score_error_precedence (cards : list card) (top : option card) :
  (~ Forall known_card cards ->
   score cards top = Raise (Exception
     "Invalid hand provided: Contains cards that are invalid")) /\
  (Forall known_card cards -> (length cards < 4)%nat ->
   score cards top = Raise (Exception
     "Invalid hand provided: Contains not enough cards")) /\
  (Forall known_card cards -> (4 <= length cards)%nat -> ~ NoDup cards ->
   score cards top = Raise (Exception
     "Invalid hand provided: Contains duplicate cards")) /\
  (forall t, Forall known_card cards -> (4 <= length cards)%nat ->
     NoDup cards -> top = Some t -> ~ known_card t ->
   score cards top = Raise (Exception
     "Invalid top-of-deck card provided: Card is invalid")) /\
  (forall t, Forall known_card cards -> (4 <= length cards)%nat ->
     NoDup cards -> top = Some t -> known_card t -> t ∈ cards ->
   score cards top = Raise (Exception
     "Invalid top-of-deck card provided: Card is duplicated")).
Proof.
  unfold score, Py.len, MIN_HAND_SIZE. split_and!.
  - intros Hk. rewrite decide_True; [done|]. by rewrite subset_all_cards.
  - intros Hk Hl.
    rewrite decide_False by (intros Hn; by apply Hn, subset_all_cards).
    rewrite decide_True by lia. done.
  - intros Hk Hl Hd.
    rewrite decide_False by (intros Hn; by apply Hn, subset_all_cards).
    rewrite decide_False by lia.
    rewrite decide_True; [done|]. by rewrite size_list_to_set_NoDup.
  - intros t Hk Hl Hd -> Ht.
    rewrite decide_False by (intros Hn; by apply Hn, subset_all_cards).
    rewrite decide_False by lia.
    rewrite decide_False by (intros Hn; by apply Hn, size_list_to_set_NoDup).
    rewrite decide_True; [done|].
    intros Hin%singleton_subseteq_l%elem_of_list_to_set.
    by apply Ht, known_card_all_cards.
  - intros t Hk Hl Hd -> Ht Hin.
    rewrite decide_False by (intros Hn; by apply Hn, subset_all_cards).
    rewrite decide_False by lia.
    rewrite decide_False by (intros Hn; by apply Hn, size_list_to_set_NoDup).
    rewrite decide_False.
    2:{ intros Hn. apply Hn, singleton_subseteq_l, elem_of_list_to_set.
        by apply known_card_all_cards. }
    rewrite decide_True; [done|].
    by apply singleton_subseteq_l, elem_of_list_to_set.
Qed.

(** ** When the rule evaluators raise *)

Lemma sublists_from_nil {A} (m : nat) (cards : list A) :
  (length cards < m)%nat -> sublists_from m cards = [].
Proof.
  intros Hlen. unfold sublists_from, Py.range.
  by replace (length cards + 1 - m)%nat with 0%nat by lia.
Qed.

(** X3: the rule evaluators called on their own.  His nibs and the flush
    raise [IndexError] exactly on the empty tuple; the sequences raise
    [ValueError] exactly on fewer than 3 cards (the maximum of no scores);
    the pairs never raise; and [score_min_card_combo] raises exactly when
    the hand with the cut card has fewer than 3 cards. *)
Theorem evaluators_raise_iff (cards : list card) (top : option card) :
  (forall e, score_his_nibs cards = Raise e <-> cards = [] /\ e = IndexError) /\
  (forall e, score_flush cards = Raise e <-> cards = [] /\ e = IndexError) /\
  (forall e, score_sequences cards = Raise e <->
             (length cards < 3)%nat /\ e = ValueError) /\
  (forall e, score_pairs cards <> Raise e) /\
  ((exists e, score_min_card_combo cards top = Raise e) <->
   (length (candidate_set cards top) < 3)%nat).
Proof.
  split_and!.
  - intros e. unfold score_his_nibs. destruct (last cards) eqn:Hl.
    + split; [done|]. intros [-> _]. done.
    + apply last_None in Hl as ->. split; [by intros [= <-]|by intros [_ ->]].
  - intros e. unfold score_flush. destruct (last cards) eqn:Hl.
    + split; [by repeat case_decide|]. intros [-> _]. done.
    + apply last_None in Hl as ->. split; [by intros [= <-]|by intros [_ ->]].
  - intros e. destruct (decide (3 <= length cards)%nat) as [Hlen|Hlen].
    + destruct (score_sequences_total cards Hlen) as [z ->].
      split; [done|]. intros [? _]. lia.
    + unfold score_sequences.
      rewrite sublists_from_nil by (change (Z.to_nat MIN_SEQUENCE_SIZE) with 3%nat; lia).
      simpl. split; [intros [= <-]; split; [lia|done]|by intros [_ ->]].
  - intros e. by rewrite score_pairs_Ok.
  - destruct (decide (3 <= length (candidate_set cards top))%nat) as [Hlen|Hlen].
    + split; [|lia]. intros [e He].
      rewrite score_min_card_combo_unfold in He.
      assert (candidate_set cards top <> []) as Hne
        by (intros E; rewrite E in Hlen; simpl in *; lia).
      destruct (score_flush_total _ Hne) as [f Hf].
      destruct (score_sequences_total _ Hlen) as [q Hq].
      destruct (score_his_nibs_total _ Hne) as [n Hn].
      rewrite Hf, Hq, score_pairs_Ok in He.
      destruct top; [rewrite Hn in He|]; done.
    + split; [lia|]. intros _.
      rewrite score_min_card_combo_unfold.
      destruct (match top with
                | Some _ => score_his_nibs (candidate_set cards top)
                | None => Ok 0
                end) as [n|e]; [|by eexists].
      simpl. destruct (score_flush (candidate_set cards top)) as [f|e];
        [|by eexists].
      simpl. unfold score_sequences.
      rewrite sublists_from_nil by (change (Z.to_nat MIN_SEQUENCE_SIZE) with 3%nat; lia).
      by eexists.
Qed.

(** ** The flush rule on a tuple of any size *)

Lemma set_of_str_single (s : string) :
  String.length s = 1%nat -> Py.set_of_str s = {[ s ]}.
Proof.
  destruct s as [|a [|b s]]; [done| |done]. intros _.
  unfold Py.set_of_str. simpl. apply set_eq. intros x. set_solver.
Qed.

Lemma list_to_set_suits (other : list card) (s : string) :
  other <> [] -> Forall (fun c : card => c.2 = s) other ->
  (list_to_set (other.*2) : gset string) = {[ s ]}.
Proof.
  intros Hne Hs. apply set_eq. intros x.
  rewrite elem_of_list_to_set, list_elem_of_fmap, elem_of_singleton.
  rewrite Forall_forall in Hs. split.
  - intros (c & -> & Hc). by apply Hs.
  - intros ->. destruct other as [|c other]; [done|].
    exists c. split; [symmetry; apply Hs|]; left.
Qed.

(** X4: [score_flush] on any tuple that ends with a cut card of a
    one-character suit.  With fewer than 4 other cards the flush is 0; with
    4 or more other cards of one suit it is their number, and one more when
    the cut card has that suit; with other cards of mixed suits it is 0. *)
Theorem score_flush_rule (other : list card) (t : card) :
  String.length t.2 = 1%nat ->
  ((length other < 4)%nat -> score_flush (other ++ [t]) = Ok 0) /\
  ((4 <= length other)%nat ->
   forall s, Forall (fun c : card => c.2 = s) other ->
     score_flush (other ++ [t]) =
     Ok (Py.len other + if decide (t.2 = s) then 1 else 0)) /\
  ((forall s, ~ Forall (fun c : card => c.2 = s) other) ->
   score_flush (other ++ [t]) = Ok 0).
Proof.
  intros Ht. unfold score_flush. rewrite last_snoc, removelast_last.
  rewrite (set_of_str_single _ Ht).
  unfold MIN_FLUSH_SIZE, SINGLE_CARD_SCORE, Py.len. split_and!.
  - intros Hlen. by rewrite decide_True by lia.
  - intros Hlen s Hs. rewrite decide_False by lia.
    rewrite (list_to_set_suits other s) by (done || intros ->; simpl in *; lia).
    rewrite size_singleton, decide_True by done.
    destruct (decide (t.2 = s)) as [->|Hne].
    + rewrite decide_True by done. f_equal. lia.
    + rewrite decide_False; [f_equal; lia|]. intros E. apply Hne. set_solver.
  - intros Hmixed. case_decide; [done|]. rewrite decide_False; [done|].
    intros [s Hs]%size_1_elem_of. apply (Hmixed s), Forall_forall.
    intros c Hc. assert (c.2 ∈ (list_to_set (other.*2) : gset string)) as Hin.
    { apply elem_of_list_to_set, list_elem_of_fmap. eauto. }
    rewrite Hs in Hin. set_solver.
Qed.

Lemma score_flush_rule_witness :
  String.length cut29.2 = 1%nat /\
  score_flush (hand29 ++ [cut29]) = Ok 0.
Proof.
  split; [reflexivity|].
  apply (score_flush_rule hand29 cut29); [reflexivity|].
  intros s Hs. apply Forall_cons in Hs as [<- Hs].
  apply Forall_cons in Hs as [Hs _]. simpl in Hs. discriminate Hs.
Defined.

(** ** A sub-hand scored without a cut card *)

(** X5: without a cut card a 4-card sub-hand scores exactly its
    sequences, pairs and special totals: there is no his nibs, and the
    flush evaluator, which sets the last card aside, finds 3 cards only. *)
Theorem score_without_cut (hand : list card) :
  length hand = 4%nat ->
  exists sequences,
    score_sequences hand = Ok sequences /\
    score_min_card_combo hand None =
    Ok (sequences + 2 * count_of is_pair (subsets hand) +
        score_special_totals hand).
Proof.
  intros Hlen. destruct (score_sequences_total hand) as [q Hq]; [lia|].
  exists q. split; [done|]. rewrite score_min_card_combo_unfold.
  rewrite (score_flush_without_cut hand Hlen). unfold candidate_set.
  rewrite Hq, score_pairs_subsets. simpl. f_equal; lia.
Qed.

Lemma score_without_cut_witness :
  length flush4 = 4%nat /\
  exists sequences, score_sequences flush4 = Ok sequences /\
    score_min_card_combo flush4 None =
    Ok (sequences + 2 * count_of is_pair (subsets flush4) +
        score_special_totals flush4).
Proof.
  split; [reflexivity|]. apply (score_without_cut flush4). reflexivity.
Defined.

(** ** A run is an interval of ranks *)

Lemma py_le_int (x y : Z) : py_le x y <-> x <= y.
Proof.
  rewrite py_le_alt. unfold Py.cmp, Py.int_cmp.
  destruct (Z.compare_spec x y); split; (lia || done).
Qed.

Lemma consecutive_seqZ (a : Z) (t : list Z) :
  consecutive (a :: t) <-> a :: t = seqZ a (Z.of_nat (S (length t))).
Proof.
  revert a. induction t as [|b t IH]; intros a.
  - split; [intros _|done]. by rewrite seqZ_cons by lia.
  - rewrite (seqZ_cons a) by lia. cbn [consecutive]. rewrite (IH b).
    replace (Z.pred (Z.of_nat (S (length (b :: t)))))
      with (Z.of_nat (S (length t))) by (simpl length; lia).
    split.
    + intros [Hab Ht]. replace (Z.succ a) with b by lia. by rewrite <-Ht.
    + intros [= Ht]. assert (b = Z.succ a) as ->.
      { rewrite (seqZ_cons (Z.succ a)) in Ht by lia. by injection Ht. }
      split; [lia|done].
Qed.

Lemma consecutive_Sorted (l : list Z) : consecutive l -> Sorted py_le l.
Proof.
  induction l as [|a [|b t] IH]; intros Hc; [by repeat constructor..|].
  destruct Hc as [Hab Ht]. constructor; [by apply IH|].
  constructor. apply py_le_int. lia.
Qed.

Lemma sort_sorted_id `{OrdLaws A} (l : list A) :
  Sorted py_le l -> Py.sort l = l.
Proof.
  intros Hl. apply (Sorted_unique py_le); [apply sort_Sorted|done|].
  apply sort_perm.
Qed.

Lemma is_run_interval (s : list card) :
  s <> [] -> is_run s <-> exists a, s.*1 ≡ₚ seqZ a (Py.len s).
Proof.
  intros Hne. unfold is_run, Py.len.
  assert (length (Py.sort (s.*1)) = length s) as Hlen
    by (by rewrite sort_length, length_fmap).
  destruct (Py.sort (s.*1)) as [|a t] eqn:Hsort.
  { destruct s; simpl in *; done. }
  split.
  - intros Hc%consecutive_seqZ. exists a.
    rewrite <-(sort_perm (s.*1)), Hsort, Hc. simpl in Hlen. by rewrite <-Hlen.
  - intros [a' Ha'].
    assert (consecutive (seqZ a' (Z.of_nat (length s)))) as Hc.
    { destruct s as [|c s]; [done|].
      rewrite length_cons, seqZ_cons by lia.
      apply consecutive_seqZ. rewrite length_seqZ.
      rewrite (seqZ_cons a') by lia. do 2 f_equal. lia. }
    rewrite <-Hsort, (sort_unique _ _ Ha').
    by rewrite sort_sorted_id by (by apply consecutive_Sorted).
Qed.

(** X6: [score_sequence] scores either nothing or one point per card.
    Fewer than 3 cards never score; 3 or more cards score (their number)
    exactly when their ranks are, in some order, an interval
    [a, a + 1, ..., a + L - 1] of the integers. *)
Theorem score_sequence_interval (s : list card) :
  (score_sequence s = 0 \/ score_sequence s = Py.len s) /\
  ((length s < 3)%nat -> score_sequence s = 0) /\
  ((3 <= length s)%nat ->
   (score_sequence s = Py.len s <-> exists a, s.*1 ≡ₚ seqZ a (Py.len s))).
Proof.
  assert ((length s < 3)%nat -> score_sequence s = 0) as Hshort.
  { intros Hlen. unfold score_sequence.
    by rewrite decide_True by (unfold Py.len, MIN_SEQUENCE_SIZE; lia). }
  split_and!; [|done|].
  - destruct (decide (3 <= length s)%nat) as [Hlen|Hlen]; [|left; apply Hshort; lia].
    rewrite score_sequence_run_score by done. unfold run_score.
    case_decide; auto.
  - intros Hlen. rewrite <-is_run_interval by (intros ->; simpl in *; lia).
    rewrite score_sequence_run_score by done. unfold run_score, Py.len.
    case_decide; split; try done. lia.
Qed.

(** ** The entries of the result *)

Lemma elem_of_combinations {A} (l s : list A) (r : nat) :
  s ∈ Py.combinations l r <-> sublist s l /\ length s = r.
Proof.
  split.
  - intros Hs. split; [by eapply combinations_sublist|].
    by eapply combinations_length.
  - intros [Hsub <-]. induction Hsub as [|x s l _ IH|x s l _ IH].
    + left.
    + simpl. apply elem_of_app. left. by apply list_elem_of_fmap_2.
    + destruct s as [|y s]; [rewrite combinations_0; left|].
      simpl. apply elem_of_app. by right.
Qed.

(** X7: for a valid input the result has no repeated entry, and [(s, hand)]
    is an entry exactly when [hand] is a 4-card subsequence of the hand
    given (its cards in their input order) and [s] is its score. *)
Theorem score_entries (cards : list card) (top : option card) :
  valid_input cards top ->
  exists res, score cards top = Ok (res, top) /\ NoDup res /\
    forall s hand,
      (s, hand) ∈ res <->
      sublist hand cards /\ length hand = 4%nat /\
      score_min_card_combo hand top = Ok s.
Proof.
  intros Hv. destruct (score_Ok _ _ Hv) as (scored & Hsc & Hs).
  exists (Py.sort scored). split; [done|].
  pose proof (scored_combos_fmap _ _ _ Hsc) as Hscored.
  destruct Hv as (_ & _ & Hnd & _). split.
  - rewrite sort_perm, Hscored. apply NoDup_fmap_2_strong.
    + by intros h h' _ _ [= _ ->].
    + by apply combinations_NoDup.
  - intros s hand. rewrite sort_perm, Hscored, list_elem_of_fmap.
    setoid_rewrite elem_of_combinations. split.
    + intros (h & [= -> ->] & Hsub & Hlen). split_and!; [done..|].
      unfold combo_points.
      destruct (score_min_card_combo_total h top) as [z ->]; [lia|done].
    + intros (Hsub & Hlen & Hscore). exists hand. split; [|done].
      unfold combo_points. by rewrite Hscore.
Qed.

Lemma score_entries_witness :
  valid_input hand6 None /\
  exists res, score hand6 None = Ok (res, None) /\ NoDup res.
Proof.
  split.
  - apply (bool_decide_unpack _). by vm_compute.
  - destruct (score_entries hand6 None) as (res & Hs & Hnd & _).
    + apply (bool_decide_unpack _). by vm_compute.
    + exists res. split; [exact Hs|exact Hnd].
Defined.

(** ** Scores are never negative *)

Lemma score_sequence_nonneg (s : list card) : 0 <= score_sequence s.
Proof.
  unfold score_sequence, Py.len, SINGLE_CARD_SCORE. repeat case_decide; lia.
Qed.

Lemma score_sequences_nonneg (cards : list card) (z : Z) :
  score_sequences cards = Ok z -> 0 <= z.
Proof.
  unfold score_sequences.
  destruct (Py.max _) as [m|e] eqn:Hmax; [|done]. simpl. intros [= <-].
  apply max_spec in Hmax as [(s & -> & _)%list_elem_of_fmap _].
  rewrite sum_ones. pose proof (score_sequence_nonneg s).
  unfold Py.len. lia.
Qed.

Lemma score_flush_nonneg (cards : list card) (z : Z) :
  score_flush cards = Ok z -> 0 <= z.
Proof.
  unfold score_flush, Py.len, SINGLE_CARD_SCORE.
  destruct (last cards); [|done]. repeat case_decide; intros [= <-]; lia.
Qed.

Lemma score_his_nibs_nonneg (cards : list card) (z : Z) :
  score_his_nibs cards = Ok z -> 0 <= z.
Proof.
  unfold score_his_nibs, Py.len, HIS_NIBS_SCORE, SINGLE_CARD_SCORE.
  destruct (last cards); [|done]. intros [= <-]. lia.
Qed.

(** X8: no rule evaluator returns a negative score, the pair score and the
    special-totals score are even, and so the score of a sub-hand is never
    negative. *)
Theorem scores_never_negative (cards : list card) (top : option card) :
  (forall z, score_his_nibs cards = Ok z -> 0 <= z) /\
  (forall z, score_flush cards = Ok z -> 0 <= z) /\
  (forall z, score_sequences cards = Ok z -> 0 <= z) /\
  (exists k, 0 <= k /\ score_pairs cards = Ok (2 * k)) /\
  (exists k, 0 <= k /\ score_special_totals cards = 2 * k) /\
  (forall z, score_min_card_combo cards top = Ok z -> 0 <= z).
Proof.
  split_and!.
  - apply score_his_nibs_nonneg.
  - apply score_flush_nonneg.
  - apply score_sequences_nonneg.
  - exists (count_of is_pair (subsets cards)).
    split; [unfold count_of; lia|apply score_pairs_subsets].
  - exists (Py.len (filter (fun total => total = SPECIAL_TOTAL)
      ((fun card_sublist : list card =>
          Py.sum ((fun c : card =>
                     if decide (c.1 >= MAX_CARD_NUMBER) then MAX_CARD_NUMBER
                     else c.1) <$> card_sublist))
       <$> sublists_from 1 cards))).
    split; [unfold Py.len; lia|].
    unfold score_special_totals, SPECIAL_TOTAL_SCORE, SINGLE_CARD_SCORE. lia.
  - intros z. rewrite score_min_card_combo_unfold.
    destruct (match top with
              | Some _ => score_his_nibs (candidate_set cards top)
              | None => Ok 0
              end) as [n|e] eqn:Hn; [|done].
    assert (0 <= n) as Hn0.
    { destruct top; [by eapply score_his_nibs_nonneg|]. by injection Hn as <-. }
    simpl. destruct (score_flush _) as [f|e] eqn:Hf; [|done].
    apply score_flush_nonneg in Hf.
    simpl. destruct (score_sequences _) as [q|e] eqn:Hq; [|done].
    apply score_sequences_nonneg in Hq.
    rewrite score_pairs_subsets. simpl. intros [= <-].
    assert (0 <= score_special_totals (candidate_set cards top)).
    { unfold score_special_totals, Py.len, SPECIAL_TOTAL_SCORE,
        SINGLE_CARD_SCORE. lia. }
    unfold count_of. lia.
Qed.

(** ** Which cards of the tuple a rule reads *)

(** X9: the sequences, the pairs and the special totals do not depend on
    the order of the tuple they are given, so the cut card may stand
    anywhere in it; his nibs and the flush only single out the last card
    and do not depend on the order of the others. *)
Theorem rules_order_invariant (cards cards' : list card) :
  cards ≡ₚ cards' ->
  score_sequences cards = score_sequences cards' /\
  score_pairs cards = score_pairs cards' /\
  score_special_totals cards = score_special_totals cards' /\
  forall t,
    score_his_nibs (cards ++ [t]) = score_his_nibs (cards' ++ [t]) /\
    score_flush (cards ++ [t]) = score_flush (cards' ++ [t]).
Proof.
  intros Hc. split_and!.
  - by apply score_sequences_perm.
  - by apply score_pairs_perm.
  - by apply score_special_totals_perm.
  - intros t. split; [by apply score_his_nibs_perm|by apply score_flush_perm].
Qed.

Lemma rules_order_invariant_witness :
  hand29 ++ [cut29] ≡ₚ cut29 :: hand29 /\
  score_sequences (hand29 ++ [cut29]) = score_sequences (cut29 :: hand29) /\
  score_pairs (hand29 ++ [cut29]) = score_pairs (cut29 :: hand29) /\
  score_special_totals (hand29 ++ [cut29]) =
  score_special_totals (cut29 :: hand29).
Proof.
  split.
  - symmetry. apply Permutation_cons_append.
  - destruct (rules_order_invariant (hand29 ++ [cut29]) (cut29 :: hand29))
      as (Hq & Hp & Ht & _).
    + symmetry. apply Permutation_cons_append.
    + split; [exact Hq|split; [exact Hp|exact Ht]].
Defined.

(** ** Which part of a card a rule reads *)

Section pointwise.
Context {A : Type} (R : relation A).

Lemma combinations_Forall2 (l l' : list A) (r : nat) :
  Forall2 R l l' ->
  Forall2 (Forall2 R) (Py.combinations l r) (Py.combinations l' r).
Proof.
  intros Hl. revert r.
  induction Hl as [|x y l l' Hxy _ IH]; intros [|r]; simpl;
    try by repeat constructor.
  apply Forall2_app; [|apply IH]. apply Forall2_fmap.
  eapply Forall2_impl; [apply IH|]. intros s s' Hs. by constructor.
Qed.

Lemma sublists_from_Forall2 (m : nat) (l l' : list A) :
  Forall2 R l l' ->
  Forall2 (Forall2 R) (sublists_from m l) (sublists_from m l').
Proof.
  intros Hl. unfold sublists_from. rewrite <-(Forall2_length _ _ _ Hl).
  apply Forall2_join, Forall2_fmap, Forall_Forall2_diag, Forall_forall.
  intros r _. by apply combinations_Forall2.
Qed.

Lemma pairs_of_Forall2 (l l' : list A) :
  Forall2 R l l' ->
  Forall2 (fun p q => R p.1 q.1 /\ R p.2 q.2) (pairs_of l) (pairs_of l').
Proof.
  induction 1 as [|x y l l' Hxy Hl IH]; simpl; [constructor|].
  apply Forall2_app; [|done]. apply Forall2_fmap.
  eapply Forall2_impl; [exact Hl|]. by intros a b Hab.
Qed.

Lemma fmap_Forall2_eq {B} (f : A -> B) (l l' : list A) :
  (forall x y, R x y -> f x = f y) ->
  Forall2 R l l' -> f <$> l = f <$> l'.
Proof.
  intros Hf. induction 1 as [|x y l l' Hxy _ IH]; [done|].
  by rewrite !fmap_cons, IH, (Hf x y).
Qed.

Lemma filter_length_Forall2 (P : A -> Prop) `{!forall x, Decision (P x)}
    (l l' : list A) :
  (forall x y, R x y -> P x <-> P y) ->
  Forall2 R l l' -> length (filter P l) = length (filter P l').
Proof.
  intros HP. induction 1 as [|x y l l' Hxy _ IH]; [done|].
  rewrite !filter_cons. specialize (HP x y Hxy).
  destruct (decide (P x)), (decide (P y)); simpl; try tauto; by rewrite IH.
Qed.

End pointwise.

Lemma fmap_eq_Forall2 {A B} (f : A -> B) (l l' : list A) :
  f <$> l = f <$> l' -> Forall2 (fun x y => f x = f y) l l'.
Proof.
  revert l'. induction l as [|x l IH]; intros [|y l']; try done.
  rewrite !fmap_cons. intros [= Hxy Hl]. constructor; [done|by apply IH].
Qed.

Lemma score_sequences_pointwise (R : relation card) (cards cards' : list card) :
  (forall c c', R c c' -> c.1 = c'.1) ->
  Forall2 R cards cards' -> score_sequences cards = score_sequences cards'.
Proof.
  intros HR Hc. unfold score_sequences.
  rewrite (fmap_Forall2_eq (Forall2 R) score_sequence
             (sublists_from (Z.to_nat MIN_SEQUENCE_SIZE) cards)
             (sublists_from (Z.to_nat MIN_SEQUENCE_SIZE) cards'));
    [done| |by apply sublists_from_Forall2].
  intros s s' Hs. unfold score_sequence, Py.len.
  rewrite (Forall2_length _ _ _ Hs).
  by rewrite (fmap_Forall2_eq R fst s s' HR Hs).
Qed.

Lemma score_pairs_pointwise (R : relation card) (cards cards' : list card) :
  (forall c c', R c c' -> c.1 = c'.1) ->
  Forall2 R cards cards' -> score_pairs cards = score_pairs cards'.
Proof.
  intros HR Hc. rewrite !score_pairs_Ok, !sum_ones. unfold Py.len.
  do 3 f_equal.
  apply (filter_length_Forall2 (fun p q => R p.1 q.1 /\ R p.2 q.2));
    [|by apply pairs_of_Forall2].
  intros p q [H1%HR H2%HR]. by rewrite H1, H2.
Qed.

Lemma score_special_totals_pointwise (R : relation card)
    (cards cards' : list card) :
  (forall c c', R c c' -> card_value c = card_value c') ->
  Forall2 R cards cards' ->
  score_special_totals cards = score_special_totals cards'.
Proof.
  intros HR Hc. unfold score_special_totals. do 3 f_equal.
  apply (fmap_Forall2_eq (Forall2 R)); [|by apply sublists_from_Forall2].
  intros s s' Hs. f_equal. apply (fmap_Forall2_eq R); [|done].
  intros c c' Hcc%HR. unfold card_value, MAX_CARD_NUMBER in *.
  repeat case_decide; lia.
Qed.

(** X10: the sequences, the pairs and the special totals read the ranks
    only: two tuples with the same ranks, position by position, get the same
    three scores whatever their suits. *)
Theorem rank_rules_ignore_suits (cards cards' : list card) :
  cards.*1 = cards'.*1 ->
  score_sequences cards = score_sequences cards' /\
  score_pairs cards = score_pairs cards' /\
  score_special_totals cards = score_special_totals cards'.
Proof.
  intros Hc%fmap_eq_Forall2. split_and!.
  - by apply (score_sequences_pointwise (fun c c' => c.1 = c'.1)).
  - by apply (score_pairs_pointwise (fun c c' => c.1 = c'.1)).
  - apply (score_special_totals_pointwise (fun c c' => c.1 = c'.1));
      [|done]. intros c c' Hcc. unfold card_value. by rewrite Hcc.
Qed.

Lemma rank_rules_ignore_suits_witness :
  hand29.*1 = ((fun c : card => (c.1, "h"%string)) <$> hand29).*1 /\
  score_pairs hand29 =
  score_pairs ((fun c : card => (c.1, "h"%string)) <$> hand29).
Proof.
  split; [reflexivity|].
  apply (rank_rules_ignore_suits hand29
           ((fun c : card => (c.1, "h"%string)) <$> hand29)).
  reflexivity.
Defined.

(** X11: the special totals read a card only through [min(rank, 10)]: a
    ten, a jack, a queen and a king are interchangeable, and so are any two
    tuples whose cards have the same values position by position. *)
Theorem special_totals_by_value (cards cards' : list card) :
  card_value <$> cards = card_value <$> cards' ->
  score_special_totals cards = score_special_totals cards'.
Proof.
  intros Hc%fmap_eq_Forall2.
  by apply (score_special_totals_pointwise
              (fun c c' => card_value c = card_value c')).
Qed.

Lemma special_totals_by_value_witness :
  card_value <$> hand29 =
    card_value <$> [(5, "s"); (5, "h"); (5, "d"); (13, "c")]%string /\
  score_special_totals hand29 =
  score_special_totals [(5, "s"); (5, "h"); (5, "d"); (13, "c")]%string.
Proof.
  split; [reflexivity|].
  apply (special_totals_by_value hand29
           [(5, "s"); (5, "h"); (5, "d"); (13, "c")]%string).
  reflexivity.
Defined.

(** ** What the sequences are worth *)

Lemma filter_eq_length_pos (x : Z) (l : list Z) :
  x ∈ l -> (1 <= length (filter (fun y => y = x) l))%nat.
Proof.
  intros Hx. assert (x ∈ filter (fun y => y = x) l) as Hin
    by (by apply list_elem_of_filter).
  destruct (filter (fun y => y = x) l); [by apply elem_of_nil in Hin|].
  simpl. lia.
Qed.

Lemma score_sequence_le_length (s : list card) :
  0 <= score_sequence s <= Py.len s.
Proof.
  unfold score_sequence, Py.len, SINGLE_CARD_SCORE. repeat case_decide; lia.
Qed.

Lemma score_sequences_unfold (cards : list card) (z : Z) :
  score_sequences cards = Ok z ->
  exists M, M ∈ score_sequence <$> sublists_from 3 cards /\
    Forall (fun y => y <= M) (score_sequence <$> sublists_from 3 cards) /\
    z = M * Py.len (filter (fun y => y = M)
                           (score_sequence <$> sublists_from 3 cards)).
Proof.
  unfold score_sequences. change (Z.to_nat MIN_SEQUENCE_SIZE) with 3%nat.
  destruct (Py.max _) as [M|e] eqn:Hmax; [|done]. simpl. intros [= <-].
  apply max_spec in Hmax as [Hin Hle]. exists M. by rewrite sum_ones.
Qed.

(** X12: the sequences score of 3 or more cards is 0 exactly when no subset
    of 3 or more cards is a run, and otherwise it is at least 3. *)
Theorem score_sequences_zero_iff (cards : list card) (z : Z) :
  score_sequences cards = Ok z ->
  (z = 0 <-> forall s, s ∈ subsets_from 3 cards -> ~ is_run s) /\
  (z = 0 \/ 3 <= z).
Proof.
  intros (M & Hin & Hle & ->)%score_sequences_unfold.
  pose proof (filter_eq_length_pos _ _ Hin) as Hpos.
  set (K := Py.len _). assert (1 <= K) as HK by (unfold K, Py.len; lia).
  clearbody K. clear Hpos.
  apply list_elem_of_fmap in Hin as (s0 & -> & Hs0).
  pose proof (score_sequence_le_length s0) as Hs0le.
  rewrite Forall_fmap, Forall_forall in Hle.
  assert (forall s, s ∈ subsets_from 3 cards <-> s ∈ sublists_from 3 cards)
    as Hsub by (intros s; by rewrite sublists_from_subsets).
  split.
  - split.
    + intros Hz s Hs Hrun. apply Hsub in Hs.
      pose proof (elem_of_sublists_from 3 cards s) as [Hlen _].
      specialize (Hlen Hs) as [Hlen _].
      specialize (Hle s Hs). simpl in Hle.
      rewrite score_sequence_run_score in Hle by done.
      unfold run_score, Py.len in Hle. rewrite decide_True in Hle by done.
      nia.
    + intros Hnorun. apply Hsub in Hs0 as Hs0'.
      pose proof (elem_of_sublists_from 3 cards s0) as [Hlen _].
      specialize (Hlen Hs0) as [Hlen _].
      rewrite score_sequence_run_score by done. unfold run_score.
      rewrite decide_False by (by apply Hnorun). lia.
  - destruct (decide (score_sequence s0 = 0)) as [->|Hne]; [left; lia|right].
    pose proof (elem_of_sublists_from 3 cards s0) as [Hlen _].
    specialize (Hlen Hs0) as [Hlen _].
    rewrite score_sequence_run_score in Hne |- * by done.
    unfold run_score, Py.len in *. case_decide; [nia|done].
Qed.

Lemma score_sequences_zero_iff_witness :
  score_sequences (hand29 ++ [cut29]) = Ok 0 /\
  forall s, s ∈ subsets_from 3 (hand29 ++ [cut29]) -> ~ is_run s.
Proof.
  split; [by vm_compute|].
  apply (score_sequences_zero_iff (hand29 ++ [cut29]) 0); [by vm_compute|].
  reflexivity.
Defined.

(** X13: when the whole tuple of 3 or more cards is a run, the sequences
    score is its length, counted once: the shorter runs inside it add
    nothing. *)
Theorem score_sequences_whole_run (cards : list card) :
  (3 <= length cards)%nat -> is_run cards ->
  score_sequences cards = Ok (Py.len cards).
Proof.
  intros Hlen Hrun.
  assert (score_sequence cards = Py.len cards) as Hfull.
  { rewrite score_sequence_run_score by done. unfold run_score.
    by rewrite decide_True. }
  destruct (score_sequences_total cards Hlen) as [z Hz]. rewrite Hz.
  apply score_sequences_unfold in Hz as (M & Hin & Hle & ->).
  assert (M = Py.len cards) as ->.
  { apply Z.le_antisymm.
    - apply list_elem_of_fmap in Hin as (s & -> & Hs).
      pose proof (score_sequence_le_length s).
      apply elem_of_sublists_from in Hs as [_ Hs%combinations_sublist].
      apply sublist_length in Hs. unfold Py.len in *. lia.
    - rewrite Forall_forall in Hle. apply Hle. rewrite <-Hfull.
      apply list_elem_of_fmap_2, sublists_from_self. lia. }
  rewrite count_of_fmap. unfold count_of.
  assert (filter (fun s => score_sequence s = Py.len cards)
                 (sublists_from 3 cards) = [cards]) as ->;
    [|simpl; f_equal; lia].
  unfold sublists_from, Py.range.
  replace (length cards + 1 - 3)%nat with (S (length cards - 3)) by lia.
  rewrite seq_S, fmap_app, join_app, filter_app. simpl.
  replace (S (S (S (length cards - 3)))) with (length cards) by lia.
  rewrite combinations_all, app_nil_r.
  rewrite filter_cons_True, filter_nil by done.
  rewrite filter_none; [done|].
  intros s (ss & Hs & (r & -> & Hr%elem_of_seq)%list_elem_of_fmap)%list_elem_of_join.
  apply combinations_length in Hs.
  pose proof (score_sequence_le_length s). unfold Py.len in *. lia.
Qed.

Lemma score_sequences_whole_run_witness :
  (3 <= length [(9, "s"); (10, "h"); (11, "c"); (12, "d"); (13, "s")]%string)%nat
  /\ score_sequences [(9, "s"); (10, "h"); (11, "c"); (12, "d"); (13, "s")]%string
     = Ok 5.
Proof.
  split; [simpl; lia|].
  apply (score_sequences_whole_run
           [(9, "s"); (10, "h"); (11, "c"); (12, "d"); (13, "s")]%string).
  - simpl. lia.
  - apply (bool_decide_unpack _). by vm_compute.
Defined.

(** ** One more card *)

Lemma count_of_app {A} (P : A -> Prop) `{!forall x, Decision (P x)}
    (l k : list A) :
  count_of P (l ++ k) = count_of P l + count_of P k.
Proof. unfold count_of. rewrite filter_app, length_app. lia. Qed.

(** X14: one more card adds to the pair score 2 points for every card of
    its rank that is there already. *)
Theorem score_pairs_one_more (cards : list card) (t : card) :
  score_pairs (cards ++ [t]) =
  (pairs ← score_pairs cards;
   Ok (pairs + 2 * Z.of_nat (rank_count t.1 cards))).
Proof.
  rewrite (score_pairs_perm (cards ++ [t]) (t :: cards))
    by (symmetry; apply Permutation_cons_append).
  rewrite !score_pairs_Ok, !sum_ones. simpl.
  pose proof (pairs_count_cons t cards) as Hc. unfold count_of in Hc.
  change (pairs_of (t :: cards)) with ((pair t <$> cards) ++ pairs_of cards)
    in Hc.
  unfold Py.len, PAIR_SCORE, SINGLE_CARD_SCORE. f_equal. lia.
Qed.

Lemma special_totals_values (cards : list card) :
  score_special_totals cards =
  2 * count_of (fun s : list card => Py.sum (card_value <$> s) = 15)
               (subsets_from 1 cards).
Proof.
  unfold score_special_totals. rewrite count_of_fmap, sublists_from_subsets.
  unfold SPECIAL_TOTAL_SCORE, SINGLE_CARD_SCORE, SPECIAL_TOTAL.
  rewrite Z.mul_comm. f_equal. apply count_of_ext. intros s _.
  assert (((fun c : card => if decide (c.1 >= MAX_CARD_NUMBER)
                            then MAX_CARD_NUMBER else c.1) <$> s)
          = card_value <$> s) as ->; [|done].
  apply list_fmap_ext. intros _ c _. unfold card_value, MAX_CARD_NUMBER.
  case_decide; lia.
Qed.

(** X15: one more card adds to the special totals 2 points for every subset
    of the cards already there whose values sum to 15 less the value of the
    new card. *)
Theorem score_special_totals_one_more (cards : list card) (t : card) :
  score_special_totals (cards ++ [t]) =
  score_special_totals cards +
  2 * count_of (fun s : list card =>
                  Py.sum (card_value <$> s) = 15 - card_value t)
               (subsets cards).
Proof.
  rewrite (score_special_totals_perm (cards ++ [t]) (t :: cards))
    by (symmetry; apply Permutation_cons_append).
  rewrite !special_totals_values. unfold subsets_from, count_of.
  rewrite !list_filter_filter. simpl subsets.
  rewrite filter_app, length_app, filter_fmap, length_fmap.
  rewrite Nat2Z.inj_add, Z.mul_add_distr_l, Z.add_comm. do 4 f_equal.
  apply list_filter_iff. intros s. rewrite fmap_cons. simpl.
  assert (card_value t <= 10) by (unfold card_value; lia).
  split; [intros [? _]; lia|intros ?; split; lia].
Qed.
